(** * The purchase session of the privacy-preserving bookstore

    A shallow embedding of
    - [src/ot_crypto.ts]: key pairs, shared secrets and [aesGcmEncrypt];
    - [src/routes/purchase.ts], in the version that declares
      [class SemiHonestOtSender] (the multi-round oblivious transfer): the
      sender and [handlePurchaseConnection];
    - [src/routes/webhook.ts]: the handler of Stripe's webhook;
    - [src/routes/users.ts], [src/routes/orders.ts]: registration, login
      and the creation of an order;
    - [src/index.ts]: the route of a WebSocket connection;
    - [src/routes/books.ts]: the statement of the catalogue search;
    - [src/upload.ts]: the encryption and upload of a book;
    followed by the properties of the proof phase, the replay guard, the
    oblivious-transfer engine and the session controller, and by further
    properties of the rounds, the download, the payment, the accounts, the
    orders, the route, the search and the upload.

    Conventions.
    - A Node [Buffer] is a list of bytes, a byte an integer in [0, 256).
    - A JavaScript array is a list; [arr[i]] is the list lookup [arr !! i],
      which is [None] where JavaScript yields [undefined].
    - The calls the handler makes on its WebSocket ([ws.send], [ws.close])
      and on the proof verifier are recorded, in program order, as a list
      of events; what the socket does with a call is not modelled.  An
      exception that no [try] of the handler catches is the event
      [Uncaught].
    - One input is handled at a time: the interleaving of two [async]
      handlers of the same connection is not modelled.
    - [crypto.randomBytes] reads from an explicit entropy source.
    - The libraries the code calls (noble-curves P-256, SHA-256, AES-256-GCM,
      hexadecimal coding, JWT, snarkjs, the S3 presigner, Stripe's signature
      check) are the fields of two interfaces, [Crypto] and [Collab];
      bcrypt and the signing of a token are [Accounts], the creation of a
      payment intent is [Stripe], the file system and the bucket are
      [Host].  A failure of the database connection is not modelled; the
      one error a query raises is the uniqueness violation. *)

From stdpp Require Import base option list strings pretty gmap.
From Stdlib Require Import ZArith Ascii.

#[local] Open Scope Z_scope.

(** ** Buffers and JavaScript integer operators *)

Abbreviation Buffer := (list Z).

(** [Buffer.alloc(n)]: [n] zero bytes. *)
Definition Buffer_alloc (n : nat) : Buffer := replicate n 0.

Definition is_byte (b : Z) : Prop := 0 ≤ b < 256.

(** [ToInt32] and the operators [>>] and [&], which work on 32-bit
    two's-complement integers; [>>] uses the low five bits of its right
    operand. *)
Definition ToInt32 (x : Z) : Z := (x + 2 ^ 31) `mod` 2 ^ 32 - 2 ^ 31.

Definition js_shr (a b : Z) : Z := Z.shiftr (ToInt32 a) (b `mod` 32).

Definition js_and (a b : Z) : Z := Z.land (ToInt32 a) (ToInt32 b).

Definition js_xor (a b : Z) : Z := Z.lxor (ToInt32 a) (ToInt32 b).

(** A store into a [Buffer] keeps the low eight bits. *)
Definition to_uint8 (x : Z) : Z := x `mod` 256.

(** [Math.ceil(Math.log2(n))] on an array length [n ≥ 1]: the real-valued
    logarithm, rounded up. *)
Definition Math_ceil_log2 (n : nat) : nat := Z.to_nat (Z.log2_up (Z.of_nat n)).

(** ** Exceptions and the entropy source *)

(** The result of a call that may throw; [code] is the [code] property of
    the thrown error (PostgreSQL's SQLSTATE for a failed query). *)
Inductive Res (A : Type) : Type :=
| Ok (a : A)
| Throws (code : string).
Arguments Ok {A} a.
Arguments Throws {A} code.

(** The operating system's random generator: a stream of values of which
    [cursor] have been consumed. *)
Record Entropy : Type := MkEntropy { stream : nat → Z; cursor : nat }.

(** [crypto.randomBytes(n)] *)
Definition randomBytes (n : nat) (e : Entropy) : Buffer * Entropy :=
  (map (λ k, stream e k `mod` 256) (seq (cursor e) n),
   MkEntropy (stream e) (cursor e + n)).

(** A computation that draws randomness and may throw. *)
Definition Rand (A : Type) : Type := Entropy → Res A * Entropy.

#[global] Instance Rand_ret : MRet Rand := λ A a e, (Ok a, e).

#[global] Instance Rand_bind : MBind Rand := λ A B k m e,
  match m e with
  | (Ok a, e') => k a e'
  | (Throws c, e') => (Throws c, e')
  end.

Definition draw (n : nat) : Rand Buffer :=
  λ e, let '(b, e') := randomBytes n e in (Ok b, e').

Definition lift {A} (r : Res A) : Rand A := λ e, (r, e).

(** ** The cryptographic libraries *)

Record KeyPair : Type := MkKeyPair { privateKey : Buffer; publicKey : Buffer }.

Class Crypto : Type := {
  (** [p256.utils.randomSecretKey()] *)
  p256_randomSecretKey : Entropy → Buffer * Entropy;
  (** [p256.getPublicKey(priv)] *)
  p256_getPublicKey : Buffer → Buffer;
  (** [p256.getSharedSecret(priv, pub)]; throws when [pub] is no curve point *)
  p256_getSharedSecret : Buffer → Buffer → Res Buffer;
  (** [createHash('sha256').update(m).digest()] *)
  sha256 : Buffer → Buffer;
  (** [createCipheriv('aes-256-gcm', key, iv)], [update], [final] and
      [getAuthTag]: ciphertext and tag; throws on a key or nonce that the
      cipher refuses *)
  aes_256_gcm : Buffer → Buffer → Buffer → Res (Buffer * Buffer);
  (** [buf.toString('hex')] and [Buffer.from(s, 'hex')] *)
  hex_encode : Buffer → string;
  hex_decode : string → Buffer;
}.

(** What the properties below use of these libraries. *)
Class CryptoLaws `{Crypto} : Prop := {
  aes_256_gcm_accepts key iv pt :
    length key = 32%nat → length iv = 12%nat →
    ∃ ct tag, aes_256_gcm key iv pt = Ok (ct, tag)
              ∧ length ct = length pt ∧ length tag = 16%nat;
}.

(** ** [src/ot_crypto.ts] *)

Section ot_crypto.
Context `{Crypto}.

Definition generateServerOtKeyPair : Rand KeyPair :=
  λ e, let '(priv, e') := p256_randomSecretKey e in
       (Ok (MkKeyPair priv (p256_getPublicKey priv)), e').

Definition deriveServerSharedSecret
    (serverPrivateKey clientPublicKey : Buffer) : Res Buffer :=
  match p256_getSharedSecret serverPrivateKey clientPublicKey with
  | Ok sharedSecret => Ok (sha256 sharedSecret)
  | Throws c => Throws c
  end.

Definition aesGcmEncrypt (key plaintext : Buffer) : Rand Buffer :=
  iv ← draw 12;
  '(ciphertext, authTag) ← lift (aes_256_gcm key iv plaintext);
  mret (iv ++ ciphertext ++ authTag).
End ot_crypto.

(** ** Protocol messages and recorded events *)

(** Messages the server sends, by their [type] field. *)
Inductive OutMsg : Type :=
| ZKP_READY
| OT_START (numBooks : nat)
| OT_ROUND_START (round : nat)
| OT_ROUND_CHALLENGE (round : nat) (g0 g1 e0 e1 : string)
| OT_DELIVER (encryptedSecrets : list string)
| SIGNED_URL (signedUrl : string).

(** Messages the client sends.  A [type] that the [switch] does not list is
    [OTHER].  [round] and [bookIndex] are modelled for integer numbers; a
    [round] of another JSON type differs ([!==]) from every counter value,
    like an integer that is not the expected round. *)
Inductive InMsg : Type :=
| INIT (token : string)
| ZKP_PROVE (proof : string) (publicSignals : list string)
| OT_ACK_START
| OT_ROUND_RESPONSE (round : Z) (clientPublicKey : string)
| OT_ROUNDS_COMPLETE
| REQUEST_SIGNED_URL (bookIndex : Z)
| DOWNLOAD_READY
| OTHER (type : string).

Inductive Event : Type :=
| WsSend (m : OutMsg)
| WsClose (code : Z) (reason : string)
| Groth16Verify (publicSignals : list string) (proof : string)
| Uncaught.

#[global] Instance OutMsg_eq_dec : EqDecision OutMsg.
Proof. solve_decision. Defined.
#[global] Instance Event_eq_dec : EqDecision Event.
Proof. solve_decision. Defined.

Definition is_deliver (ev : Event) : bool :=
  match ev with WsSend (OT_DELIVER _) => true | _ => false end.

Definition is_close (ev : Event) : bool :=
  match ev with WsClose _ _ => true | _ => false end.

Definition is_verify (ev : Event) : bool :=
  match ev with Groth16Verify _ _ => true | _ => false end.

(** ** The store *)

Inductive Status : Type := pending | paid | verified | completed | failed.

#[global] Instance Status_eq_dec : EqDecision Status.
Proof. solve_decision. Defined.

Definition status_name (s : Status) : string :=
  match s with
  | pending => "pending" | paid => "paid" | verified => "verified"
  | completed => "completed" | failed => "failed"
  end.

(** A row of [purchases]; the table is keyed by the primary key [id]. *)
Record Purchase : Type := MkPurchase {
  user_id : string;
  stripe_payment_intent_id : string;
  commitment : string;
  status : Status;
  nullifier_hash : option string;
}.

(** A row of [books], as [SELECT id, file_key, secret_key] returns it. *)
Record Book : Type := MkBook {
  book_id : string;
  file_key : string;
  secret_key : string;
}.

(** [books] holds the rows in ascending [id], the order in which
    [SELECT ... FROM books ORDER BY id] returns them. *)
Record Db : Type := MkDb {
  purchases : gmap string Purchase;
  books : list Book;
}.

(** The [UPDATE purchases SET ... WHERE ...] statements of the repository:
    the row is selected by primary key or by payment intent, and
    [where_status] is the [AND status = '...'] conjunct, if the statement
    has one.  [set_nullifier_hash] is [None] when the column is not
    assigned. *)
Inductive RowKey : Type :=
| ById (id : string)
| ByPaymentIntent (intent : string).

Record Update : Type := MkUpdate {
  set_status : Status;
  set_nullifier_hash : option (option string);
  where_key : RowKey;
  where_status : option Status;
}.

Definition row_matches (u : Update) (id : string) (r : Purchase) : bool :=
  match where_key u with
  | ById id' => bool_decide (id = id')
  | ByPaymentIntent intent => bool_decide (stripe_payment_intent_id r = intent)
  end
  && match where_status u with
     | Some s => bool_decide (status r = s)
     | None => true
     end.

Definition assign (u : Update) (r : Purchase) : Purchase :=
  MkPurchase (user_id r) (stripe_payment_intent_id r) (commitment r)
    (set_status u)
    (match set_nullifier_hash u with
     | Some v => v
     | None => nullifier_hash r
     end).

Definition updated (u : Update) (t : gmap string Purchase)
    : gmap string Purchase :=
  map_imap (λ id r, Some (if row_matches u id r then assign u r else r)) t.

Definition rowCount (u : Update) (t : gmap string Purchase) : nat :=
  size (filter (λ kr, row_matches u kr.1 kr.2 = true) t).

(** Modelled from the spec: the schema of [purchases] is not among the
    sources; the specification gives it a uniqueness constraint on the
    nullifier ("the nullifier is globally unique across all purchases"),
    and the code tests for its SQLSTATE 23505.  An update violates it when
    a row it writes gets a non-null nullifier that another row holds after
    the update. *)
Definition violates_unique (u : Update) (t : gmap string Purchase) : Prop :=
  ∃ n, set_nullifier_hash u = Some (Some n)
       ∧ map_Exists (λ id r,
           row_matches u id r = true
           ∧ map_Exists (λ id' r', id' ≠ id ∧ nullifier_hash r' = Some n)
               (updated u t)) t.

#[global] Instance violates_unique_dec u t : Decision (violates_unique u t).
Proof.
  unfold violates_unique.
  destruct (set_nullifier_hash u) as [[n|]|].
  - destruct (decide (map_Exists (λ id r,
           row_matches u id r = true
           ∧ map_Exists (λ id' r', id' ≠ id ∧ nullifier_hash r' = Some n)
               (updated u t)) t)) as [Hy|Hn].
    + left. by exists n.
    + right. intros (n' & Heq & Hex). by simplify_eq.
  - right. intros (n' & Heq & _). discriminate.
  - right. intros (n' & Heq & _). discriminate.
Defined.

(** [pool.query] on an update: the new table and [rowCount], or the
    constraint's error, which leaves the table as it was. *)
Definition exec_update (u : Update) (t : gmap string Purchase)
    : Res (gmap string Purchase * nat) :=
  if decide (violates_unique u t) then Throws "23505"
  else Ok (updated u t, rowCount u t).

(** ** [SemiHonestOtSender] *)

Record RoundSeeds : Type := MkRoundSeeds { seed0 : Buffer; seed1 : Buffer }.

Record SemiHonestOtSender : Type := MkSender {
  bookSecrets : list Buffer;
  choiceBitCount : nat;
  currentRound : nat;
  roundSeeds : list RoundSeeds;
}.

(** The constructor's loop: [choiceBitCount] pushes of two fresh seeds. *)
Fixpoint draw_seeds (n : nat) (e : Entropy) : list RoundSeeds * Entropy :=
  match n with
  | O => ([], e)
  | S n' =>
      let '(s0, e1) := randomBytes 32 e in
      let '(s1, e2) := randomBytes 32 e1 in
      let '(rest, e3) := draw_seeds n' e2 in
      (MkRoundSeeds s0 s1 :: rest, e3)
  end.

(** The innermost loop of [sendFinalSecrets]:
    [masterKey[k] = masterKey[k] ^ seed[k]] for [k < 32], where both bytes
    are defined. *)
Definition xor_into (masterKey seed : Buffer) : Buffer :=
  foldl (λ mk k,
           match mk !! k, seed !! k with
           | Some masterKeyByte, Some seedByte =>
               <[k := to_uint8 (js_xor masterKeyByte seedByte)]> mk
           | _, _ => mk
           end)
        masterKey (seq 0 32).

(** [(i >> j) & 1] *)
Definition choiceBit (i j : nat) : Z :=
  js_and (js_shr (Z.of_nat i) (Z.of_nat j)) 1.

Section SemiHonestOtSender.
Context `{Crypto}.

Definition new_SemiHonestOtSender (books : list Book)
    (e : Entropy) : SemiHonestOtSender * Entropy :=
  let bookSecrets := map (λ b, hex_decode (secret_key b)) books in
  let choiceBitCount :=
    if bool_decide (1 < length books)%nat
    then Math_ceil_log2 (length books) else 0%nat in
  let '(roundSeeds, e') := draw_seeds choiceBitCount e in
  (MkSender bookSecrets choiceBitCount 0 roundSeeds, e').

(** The loop over [j] of [sendFinalSecrets]: the master key of item [i]. *)
Definition masterKey_of (o : SemiHonestOtSender) (i : nat) : Buffer :=
  foldl (λ mk j,
           match roundSeeds o !! j with
           | Some seeds =>
               let seed :=
                 if bool_decide (choiceBit i j = 0)
                 then seed0 seeds else seed1 seeds in
               xor_into mk seed
           | None => mk
           end)
        (Buffer_alloc 32) (seq 0 (choiceBitCount o)).

(** The loop over [i] of [sendFinalSecrets], [acc] being
    [finalEncryptedSecrets]. *)
Fixpoint encrypt_items (o : SemiHonestOtSender) (items : list nat)
    (acc : list string) : Rand (list string) :=
  match items with
  | [] => mret acc
  | i :: rest =>
      match bookSecrets o !! i with
      | None => encrypt_items o rest acc
      | Some bookSecret =>
          encryptedSecret ← aesGcmEncrypt (masterKey_of o i) bookSecret;
          encrypt_items o rest (acc ++ [hex_encode encryptedSecret])
      end
  end.

Definition sendFinalSecrets (o : SemiHonestOtSender) : Rand (list Event) :=
  let numBooks := length (bookSecrets o) in
  finalEncryptedSecrets ← encrypt_items o (seq 0 numBooks) [];
  mret [WsSend (OT_DELIVER finalEncryptedSecrets)].

Definition start (o : SemiHonestOtSender) : Rand (list Event) :=
  if bool_decide (choiceBitCount o = 0%nat) then sendFinalSecrets o
  else mret [WsSend (OT_ROUND_START 0)].

(** The body of the [try] of [processRoundResponse] up to the challenge
    message. *)
Definition round_challenge (round : nat) (seeds : RoundSeeds)
    (clientPublicKeyHex : string) : Rand OutMsg :=
  let clientPublicKey := hex_decode clientPublicKeyHex in
  serverKeyPair0 ← generateServerOtKeyPair;
  serverKeyPair1 ← generateServerOtKeyPair;
  sharedSecret0 ←
    lift (deriveServerSharedSecret (privateKey serverKeyPair0) clientPublicKey);
  sharedSecret1 ←
    lift (deriveServerSharedSecret (privateKey serverKeyPair1) clientPublicKey);
  encryptedSeed0 ← aesGcmEncrypt sharedSecret0 (seed0 seeds);
  encryptedSeed1 ← aesGcmEncrypt sharedSecret1 (seed1 seeds);
  mret (OT_ROUND_CHALLENGE round
          (hex_encode (publicKey serverKeyPair0))
          (hex_encode (publicKey serverKeyPair1))
          (hex_encode encryptedSeed0)
          (hex_encode encryptedSeed1)).

(** [processRoundResponse]: the sender afterwards and the calls made on
    the socket.  No exception leaves the method. *)
Definition processRoundResponse (o : SemiHonestOtSender) (round : Z)
    (clientPublicKeyHex : string) (e : Entropy)
    : SemiHonestOtSender * list Event * Entropy :=
  if bool_decide (round ≠ Z.of_nat (currentRound o))
  then (o, [WsClose 1011 "[OT] round mismatch."], e)
  else
    match roundSeeds o !! currentRound o with
    | None =>
        (o, [WsClose 1011 ("[OT] round " +:+ pretty round
                           +:+ " seed not found.")], e)
    | Some seeds =>
        match round_challenge (currentRound o) seeds clientPublicKeyHex e with
        | (Ok challenge, e') =>
            let next := S (currentRound o) in
            (MkSender (bookSecrets o) (choiceBitCount o) next (roundSeeds o),
             WsSend challenge
             :: (if bool_decide (next < choiceBitCount o)%nat
                 then [WsSend (OT_ROUND_START next)] else []),
             e')
        | (Throws _, e') =>
            (o, [WsClose 1011 "OT protocol processing failed."], e')
        end
    end.
End SemiHonestOtSender.

(** ** The collaborators of the session controller *)

Inductive StripeEvent : Type :=
| payment_intent_succeeded (paymentIntentId : string)
| other_event (type : string).

Class Collab : Type := {
  (** [verifyJwt(token, JWT_SECRET)]: the [sub] claim of the payload when
      it is a string; throws on a token it does not accept *)
  verifyJwt : string → Res (option string);
  (** [groth16.verify(vkey, publicSignals, proof)] *)
  groth16_verify : list string → string → Res bool;
  (** [getSignedUrl(R2, new GetObjectCommand({Bucket, Key}), ...)] *)
  getSignedUrl : string → string → Res string;
  (** [stripe.webhooks.constructEvent(rawBody, signature, webhookSecret)] *)
  constructEvent : string → string → Res StripeEvent;
}.

(** ** [handlePurchaseConnection] *)

(** The columns [SELECT user_id, status, commitment] reads at [INIT]. *)
Record PurchaseView : Type := MkView {
  view_user_id : string;
  view_status : Status;
  view_commitment : string;
}.

(** [sessionState], and the counters of the polling timers that [INIT]
    started ([None] once [clearInterval] ran). *)
Record Session : Type := MkSession {
  userId : string;
  purchase : option PurchaseView;
  otSender : option SemiHonestOtSender;
  session_books : list Book;
  intervals : list (option nat);
}.

Definition initial_session : Session := MkSession "" None None [] [].

(** What a handler reads and writes outside the session: the store, the
    entropy source and [process.env.R2_BUCKET_NAME]. *)
Record World : Type := MkWorld {
  db : Db;
  entropy : Entropy;
  R2_BUCKET_NAME : option string;
}.

(** What drives a session: a message of the client or a tick of the
    [k]-th polling timer. *)
Inductive Input : Type :=
| Message (m : InMsg)
| Tick (k : nat).

(** [arr[i]] for an index received from the client. *)
Definition js_index {A} (arr : list A) (i : Z) : option A :=
  if bool_decide (0 ≤ i) then arr !! Z.to_nat i else None.

(** The three status updates of the repository. *)
Definition update_paid (paymentIntentId : string) : Update :=
  MkUpdate paid None (ByPaymentIntent paymentIntentId) (Some pending).

Definition update_verified (nullifier : option string) (purchaseId : string)
    : Update :=
  MkUpdate verified (Some nullifier) (ById purchaseId) (Some paid).

Definition update_completed (purchaseId : string) : Update :=
  MkUpdate completed None (ById purchaseId) None.

Definition with_purchases (w : World) (t : gmap string Purchase) : World :=
  MkWorld (MkDb t (books (db w))) (entropy w) (R2_BUCKET_NAME w).

Definition with_entropy (w : World) (e : Entropy) : World :=
  MkWorld (db w) e (R2_BUCKET_NAME w).

Section handlePurchaseConnection.
Context `{Crypto} `{Collab}.
Variable purchaseId : string.

(** [handleInitLogic]: [true] only when the purchase is [paid]; the
    [return ws.close(...)] branches yield [undefined], which the callers
    test like [false]. *)
Definition handleInitLogic (s : Session) (w : World)
    : bool * Session * list Event :=
  match purchases (db w) !! purchaseId with
  | Some r =>
      if bool_decide (user_id r = userId s) then
        if bool_decide (status r = paid) then
          (true,
           MkSession (userId s)
             (Some (MkView (user_id r) (status r) (commitment r)))
             (otSender s) (session_books s) (intervals s),
           [WsSend ZKP_READY])
        else if bool_decide (status r ≠ pending) then
          (false, s,
           [WsClose 1011 ("invalid purchase status: "
                          +:+ status_name (status r))])
        else (false, s, [])
      else (false, s, [WsClose 1011 "purchase record not found."])
  | None => (false, s, [WsClose 1011 "purchase record not found."])
  end.

Definition set_intervals (s : Session) (l : list (option nat)) : Session :=
  MkSession (userId s) (purchase s) (otSender s) (session_books s) l.

Definition handle_INIT (s : Session) (w : World) (token : string)
    : Session * World * list Event :=
  match verifyJwt token with
  | Throws _ => (s, w, [WsClose 1011 "authentication failed."])
  | Ok None => (s, w, [WsClose 1011 "invalid token."])
  | Ok (Some sub) =>
      let s1 := MkSession sub (purchase s) (otSender s) (session_books s)
                  (intervals s) in
      let '(success, s2, evs) := handleInitLogic s1 w in
      if success then (s2, w, evs)
      else (set_intervals s2 (intervals s2 ++ [Some 0%nat]), w, evs)
  end.

(** The callback of [setInterval]. *)
Definition handle_Tick (s : Session) (w : World) (k : nat)
    : Session * World * list Event :=
  match intervals s !! k with
  | Some (Some attempts) =>
      let attempts := S attempts in
      let '(pollSuccess, s1, evs) := handleInitLogic s w in
      if pollSuccess || bool_decide (10 ≤ attempts)%nat then
        (set_intervals s1 (<[k := None]> (intervals s1)), w,
         evs ++ (if pollSuccess then []
                 else [WsClose 1011
                         "waiting for payment status update timeout."]))
      else (set_intervals s1 (<[k := Some attempts]> (intervals s1)), w, evs)
  | _ => (s, w, [])
  end.

Definition handle_ZKP_PROVE (s : Session) (w : World)
    (proof : string) (publicSignals : list string)
    : Session * World * list Event :=
  match purchase s with
  | None => (s, w, [Uncaught])
  | Some p =>
      if bool_decide (publicSignals !! 2%nat ≠ Some (view_commitment p))
      then (s, w, [WsClose 1011 "commitment mismatch."])
      else
        match groth16_verify publicSignals proof with
        | Throws _ => (s, w, [Groth16Verify publicSignals proof; Uncaught])
        | Ok false =>
            (s, w, [Groth16Verify publicSignals proof;
                    WsClose 1011 "ZKP verification failed."])
        | Ok true =>
            match exec_update
                    (update_verified (publicSignals !! 0%nat) purchaseId)
                    (purchases (db w)) with
            | Throws code =>
                (s, w,
                 [Groth16Verify publicSignals proof;
                  WsClose 1011
                    (if bool_decide (code = "23505")
                     then "proof has been used."
                     else "database final update error.")])
            | Ok (t, n) =>
                let w1 := with_purchases w t in
                if bool_decide (n = 0%nat) then
                  (s, w1,
                   [Groth16Verify publicSignals proof;
                    WsClose 1011
                      "purchase record has been verified or used."])
                else
                  let rows := books (db w1) in
                  let '(sender, e) :=
                    new_SemiHonestOtSender rows (entropy w1) in
                  (MkSession (userId s) (purchase s) (Some sender) rows
                     (intervals s),
                   with_entropy w1 e,
                   [Groth16Verify publicSignals proof;
                    WsSend (OT_START (length rows))])
            end
        end
  end.

(** A method of the sender called outside any [try]: an exception is
    uncaught. *)
Definition uncaught_or (s : Session) (w : World)
    (r : Res (list Event) * Entropy) : Session * World * list Event :=
  match r with
  | (Ok evs, e) => (s, with_entropy w e, evs)
  | (Throws _, e) => (s, with_entropy w e, [Uncaught])
  end.

Definition handle_OT_ACK_START (s : Session) (w : World)
    : Session * World * list Event :=
  match otSender s with
  | Some o => uncaught_or s w (start o (entropy w))
  | None => (s, w, [])
  end.

Definition handle_OT_ROUND_RESPONSE (s : Session) (w : World)
    (round : Z) (clientPublicKey : string) : Session * World * list Event :=
  match otSender s with
  | Some o =>
      let '(o', evs, e) :=
        processRoundResponse o round clientPublicKey (entropy w) in
      (MkSession (userId s) (purchase s) (Some o') (session_books s)
         (intervals s),
       with_entropy w e, evs)
  | None => (s, w, [])
  end.

Definition handle_OT_ROUNDS_COMPLETE (s : Session) (w : World)
    : Session * World * list Event :=
  match otSender s with
  | Some o => uncaught_or s w (sendFinalSecrets o (entropy w))
  | None => (s, w, [])
  end.

Definition handle_REQUEST_SIGNED_URL (s : Session) (w : World)
    (bookIndex : Z) : Session * World * list Event :=
  match js_index (session_books s) bookIndex with
  | None => (s, w, [WsClose 1011 "invalid book index."])
  | Some book =>
      match R2_BUCKET_NAME w with
      | Some bucketName =>
          if bool_decide (bucketName = "")
          then (s, w, [WsClose 1011 "server configuration error."])
          else
            match getSignedUrl bucketName (file_key book) with
            | Ok signedUrl => (s, w, [WsSend (SIGNED_URL signedUrl)])
            | Throws _ =>
                (s, w, [WsClose 1011 "failed to get download link."])
            end
      | None => (s, w, [WsClose 1011 "server configuration error."])
      end
  end.

Definition handle_DOWNLOAD_READY (s : Session) (w : World)
    : Session * World * list Event :=
  match exec_update (update_completed purchaseId) (purchases (db w)) with
  | Ok (t, _) =>
      (s, with_purchases w t, [WsClose 1000 "purchase process completed."])
  | Throws _ => (s, w, [WsClose 1011 "database final update error."])
  end.

(** The [switch] of [ws.on('message', ...)]. *)
Definition handle_message (s : Session) (w : World) (m : InMsg)
    : Session * World * list Event :=
  match m with
  | INIT token => handle_INIT s w token
  | ZKP_PROVE proof publicSignals => handle_ZKP_PROVE s w proof publicSignals
  | OT_ACK_START => handle_OT_ACK_START s w
  | OT_ROUND_RESPONSE round clientPublicKey =>
      handle_OT_ROUND_RESPONSE s w round clientPublicKey
  | OT_ROUNDS_COMPLETE => handle_OT_ROUNDS_COMPLETE s w
  | REQUEST_SIGNED_URL bookIndex => handle_REQUEST_SIGNED_URL s w bookIndex
  | DOWNLOAD_READY => handle_DOWNLOAD_READY s w
  | OTHER _ => (s, w, [])
  end.

Definition step (s : Session) (w : World) (i : Input)
    : Session * World * list Event :=
  match i with
  | Message m => handle_message s w m
  | Tick k => handle_Tick s w k
  end.

(** A run of one session with nothing else writing the store: the
    inputs are handled one after the other and the events accumulate. *)
Fixpoint run (s : Session) (w : World) (inputs : list Input)
    : Session * World * list Event :=
  match inputs with
  | [] => (s, w, [])
  | i :: rest =>
      let '(s1, w1, evs) := step s w i in
      let '(s2, w2, evs') := run s1 w1 rest in
      (s2, w2, evs ++ evs')
  end.

(** The sessions a connection can be in: between two inputs the store,
    the entropy source and the environment may have changed at will. *)
Inductive reachable : Session → Prop :=
| reachable_initial : reachable initial_session
| reachable_step s w i :
    reachable s → reachable (step s w i).1.1.
End handlePurchaseConnection.

(** ** [src/routes/webhook.ts] *)

Inductive HttpResponse : Type :=
| Json200
| HttpException (status : Z) (message : string).

Section webhook.
Context `{Collab}.

(** [webhook.post('/stripe', ...)]; [err.message] of the signature error
    is not modelled, the reply carries the prefix only. *)
Definition post_stripe (signature : option string) (rawBody : string)
    (t : gmap string Purchase) : HttpResponse * gmap string Purchase :=
  match signature with
  | None => (HttpException 400 "stripe-signature header is missing", t)
  | Some sig =>
      if bool_decide (sig = "")
      then (HttpException 400 "stripe-signature header is missing", t)
      else
        match constructEvent rawBody sig with
        | Throws _ => (HttpException 400 "Webhook error: ", t)
        | Ok (payment_intent_succeeded paymentIntentId) =>
            match exec_update (update_paid paymentIntentId) t with
            | Ok (t', _) => (Json200, t')
            | Throws _ => (HttpException 500 "database update failed", t)
            end
        | Ok (other_event _) => (Json200, t)
        end
  end.
End webhook.

(** ** The formulas of the specification

    Definitions that follow the words of the specification, to compare the
    code with. *)

(** Byte-wise exclusive-or of two buffers. *)
Definition xor_bytes (a b : Buffer) : Buffer := zip_with Z.lxor a b.

(** The seed that index [i] selects in round [j]: [seed1] if bit [j] of [i]
    is set, else [seed0]. *)
Definition selected_seed (i j : nat) (seeds : RoundSeeds) : Buffer :=
  if Z.testbit (Z.of_nat i) (Z.of_nat j) then seed1 seeds else seed0 seeds.

(** The per-item key of [deliver_all]: the exclusive-or of the seeds
    selected by the bits of [i], one per round. *)
Definition item_key (roundSeeds : list RoundSeeds) (i : nat) : Buffer :=
  foldl xor_bytes (replicate 32 0) (imap (selected_seed i) roundSeeds).

(** The twelve bytes that the [i]-th call of [randomBytes(12)] after [e]
    returns when nothing else draws in between. *)
Definition nonce_at (e : Entropy) (i : nat) : Buffer :=
  map (λ k, stream e k `mod` 256) (seq (cursor e + 12 * i) 12).

Definition seeds_wf (s : RoundSeeds) : Prop :=
  length (seed0 s) = 32%nat ∧ length (seed1 s) = 32%nat
  ∧ Forall is_byte (seed0 s) ∧ Forall is_byte (seed1 s).

(** What the constructor establishes and no method changes: one pair of
    32-byte seeds per round.  A JavaScript array holds fewer than 2^32
    elements, which bounds the number of rounds by 32. *)
Definition sender_wf (o : SemiHonestOtSender) : Prop :=
  length (roundSeeds o) = choiceBitCount o
  ∧ (choiceBitCount o ≤ 32)%nat
  ∧ Forall seeds_wf (roundSeeds o).

(** The counter of accepted rounds never passes the number of rounds. *)
Definition sender_inv (o : SemiHonestOtSender) : Prop :=
  (currentRound o ≤ choiceBitCount o)%nat
  ∧ length (roundSeeds o) = choiceBitCount o.

(** ** An executable instance of the interfaces

    Stand-ins for the libraries, simple enough to evaluate: they let the
    model run on concrete inputs. *)

Module Sample.

Definition hex_digit (d : Z) : string :=
  String (nth (Z.to_nat d)
            ["0";"1";"2";"3";"4";"5";"6";"7";"8";"9";"a";"b";"c";"d";"e";"f"]%char
            "0"%char) EmptyString.

Definition to_hex (b : Buffer) : string :=
  foldr (λ x acc, hex_digit (x / 16) +:+ hex_digit (x `mod` 16) +:+ acc)
    EmptyString b.

(** The value of a hexadecimal digit, in either case. *)
Definition digit_of (c : ascii) : option Z :=
  let n := Z.of_nat (nat_of_ascii c) in
  if bool_decide (48 ≤ n ≤ 57) then Some (n - 48)
  else if bool_decide (97 ≤ n ≤ 102) then Some (n - 87)
  else if bool_decide (65 ≤ n ≤ 70) then Some (n - 55)
  else None.

(** [Buffer.from(s, 'hex')]: one byte per pair of digits, up to the first
    pair that is not hexadecimal; a last digit without partner is
    dropped. *)
Fixpoint of_hex (s : string) : Buffer :=
  match s with
  | String a (String b rest) =>
      match digit_of a, digit_of b with
      | Some x, Some y => (16 * x + y) :: of_hex rest
      | _, _ => []
      end
  | _ => []
  end.

(** A keystream cipher: byte [k] of the text is xored with byte
    [k mod 32] of the key; the tag is sixteen copies of the text length. *)
Definition toy_gcm (key iv pt : Buffer) : Res (Buffer * Buffer) :=
  if bool_decide (length key = 32%nat ∧ length iv = 12%nat) then
    Ok (imap (λ k x, Z.lxor x (nth (k `mod` 32)%nat key 0)) pt,
        replicate 16 (Z.of_nat (length pt) `mod` 256))
  else Throws "ERR_CRYPTO_INVALID_KEYLEN".

#[local] Instance crypto : Crypto := {|
  p256_randomSecretKey := randomBytes 32;
  p256_getPublicKey priv := map (λ x, (x + 1) `mod` 256) priv;
  p256_getSharedSecret priv pub :=
    if bool_decide (length pub = 33%nat)
    then Ok (zip_with Z.lxor priv pub) else Throws "";
  sha256 m := take 32 (m ++ replicate 32 0);
  aes_256_gcm := toy_gcm;
  hex_encode := to_hex;
  hex_decode := of_hex;
|}.

#[local] Instance collab : Collab := {|
  verifyJwt token :=
    if bool_decide (token = "jwt-alice") then Ok (Some "alice")
    else if bool_decide (token = "jwt-nosub") then Ok None
    else Throws "";
  groth16_verify publicSignals proof :=
    if bool_decide (proof = "malformed") then Throws ""
    else Ok (bool_decide (proof = "valid"));
  getSignedUrl bucket key := Ok ("https://" +:+ bucket +:+ "/" +:+ key);
  constructEvent rawBody sig :=
    if bool_decide (sig = "good")
    then Ok (payment_intent_succeeded rawBody) else Throws "";
|}.

(** An entropy source whose [k]-th value is [7 k + 3]. *)
Definition entropy0 : Entropy := MkEntropy (λ k, 7 * Z.of_nat k + 3) 0.

Definition book (n : string) : Book :=
  MkBook ("id-" +:+ n) ("books/" +:+ n +:+ ".enc") ("0a0b0c" +:+ n).

Definition four_books : list Book :=
  [book "00"; book "01"; book "02"; book "03"].

Definition paid_row : Purchase := MkPurchase "alice" "pi_1" "C" paid None.

Definition world0 : World :=
  MkWorld (MkDb {[ "p1" := paid_row ]} four_books) entropy0 (Some "bucket").

Definition pending_row : Purchase :=
  MkPurchase "alice" "pi_1" "C" pending None.

Definition pending_world : World :=
  MkWorld (MkDb {[ "p1" := pending_row ]} four_books) entropy0
    (Some "bucket").

Definition signals : list string := ["42"; "R"; "C"].

(** The session and the world after [INIT]. *)
Definition paid_state : Session * World * list Event :=
  run "p1" initial_session world0 [Message (INIT "jwt-alice")].

(** The session and the world after [INIT] and an accepted proof: the
    sender exists and no round has run. *)
Definition ot_state : Session * World * list Event :=
  run "p1" initial_session world0
    [Message (INIT "jwt-alice"); Message (ZKP_PROVE "valid" signals)].

Definition key32 : Buffer := replicate 32 7.

(** The sender for the four books, before any round. *)
Definition sender4 : SemiHonestOtSender :=
  (new_SemiHonestOtSender four_books entropy0).1.

Definition paid_view : PurchaseView := MkView "alice" paid "C".

Definition eight_books : list Book :=
  four_books ++ [book "04"; book "05"; book "06"; book "07"].

Definition world8 : World :=
  MkWorld (MkDb {[ "p1" := pending_row ]} eight_books) entropy0
    (Some "bucket").

(** A 33-byte client key, in hexadecimal. *)
Definition client_key : string := to_hex (replicate 33 2).

(** The [type] of a message sent, or the name of the call. *)
Definition kind (ev : Event) : string :=
  match ev with
  | WsSend ZKP_READY => "ZKP_READY"
  | WsSend (OT_START _) => "OT_START"
  | WsSend (OT_ROUND_START _) => "OT_ROUND_START"
  | WsSend (OT_ROUND_CHALLENGE _ _ _ _ _) => "OT_ROUND_CHALLENGE"
  | WsSend (OT_DELIVER _) => "OT_DELIVER"
  | WsSend (SIGNED_URL _) => "SIGNED_URL"
  | WsClose _ _ => "close"
  | Groth16Verify _ _ => "groth16.verify"
  | Uncaught => "uncaught"
  end.

(** The client's side of the end-to-end scenario, after the webhook has
    marked the purchase paid: three rounds for eight books, then the
    download of item 5. *)
Definition scenario : list Input :=
  [Message (INIT "jwt-alice");
   Message (ZKP_PROVE "valid" signals);
   Message OT_ACK_START;
   Message (OT_ROUND_RESPONSE 0 client_key);
   Message (OT_ROUND_RESPONSE 1 client_key);
   Message (OT_ROUND_RESPONSE 2 client_key);
   Message OT_ROUNDS_COMPLETE;
   Message (REQUEST_SIGNED_URL 5);
   Message DOWNLOAD_READY].

End Sample.

(** * Further code and runs

    Definitions for the rest of the repository and for runs of several
    steps. *)

(** ** A client that answers the rounds in order *)

(** The client answers the round the sender expects, once per key of
    [keys]; the method is [processRoundResponse]. *)
Fixpoint answer_rounds `{Crypto} (o : SemiHonestOtSender) (keys : list string)
    (e : Entropy) : SemiHonestOtSender * list Event * Entropy :=
  match keys with
  | [] => (o, [], e)
  | key :: rest =>
      let '(o1, evs, e1) :=
        processRoundResponse o (Z.of_nat (currentRound o)) key e in
      let '(o2, evs', e2) := answer_rounds o1 rest e1 in
      (o2, evs ++ evs', e2)
  end.

Definition challenge_round (ev : Event) : option nat :=
  match ev with
  | WsSend (OT_ROUND_CHALLENGE round _ _ _ _) => Some round
  | _ => None
  end.

Definition offered_round (ev : Event) : option nat :=
  match ev with
  | WsSend (OT_ROUND_START round) => Some round
  | _ => None
  end.

(** ** What a session holds *)

Definition is_signed_url (ev : Event) : bool :=
  match ev with WsSend (SIGNED_URL _) => true | _ => false end.

(** The books of a session are those of its sender, and a session with a
    sender has loaded its purchase. *)
Definition session_inv `{Crypto} (s : Session) : Prop :=
  match otSender s with
  | None => session_books s = []
  | Some o =>
      bookSecrets o = map (λ b, hex_decode (secret_key b)) (session_books s)
      ∧ is_Some (purchase s)
  end.

(** A session of a connection together with the calls it has made so far,
    in order; as for [reachable], the store, the entropy source and the
    environment may change at will between two inputs. *)
Inductive history `{Crypto} `{Collab} (purchaseId : string)
    : Session → list Event → Prop :=
| history_initial : history purchaseId initial_session []
| history_step s past w i :
    history purchaseId s past →
    history purchaseId (step purchaseId s w i).1.1
      (past ++ (step purchaseId s w i).2).

(** ** [src/routes/users.ts] *)

(** A field of a JSON body that is read as a string: [None] when the body
    has no such field.  Values of another JSON type are not modelled.
    A string is the sequence of its code units, [String.length] its
    [length]. *)
Definition falsy (field : option string) : bool :=
  match field with
  | None => true
  | Some s => bool_decide (s = "")
  end.

(** A row of [users] without its [email], by which the table is keyed: the
    schema is not among the sources; that [email] is unique is what the
    handler's reply 409, "this email already exists", on SQLSTATE 23505
    says.  [id] and [created_at] are column defaults that the database
    supplies. *)
Record User : Type := MkUser {
  uid : string;
  password_hash : string;
  created_at : Z;
}.

Record JwtClaims : Type := MkClaims {
  claim_sub : string;
  claim_email : string;
  claim_exp : Z;
}.

Class Accounts : Type := {
  (** [bcrypt.hash(password, 10)] with the salt it draws *)
  bcrypt_hash : string → Buffer → string;
  (** [bcrypt.compare(password, hash)] *)
  bcrypt_compare : string → string → bool;
  (** [sign(payload, JWT_SECRET)] *)
  jwt_sign : JwtClaims → Res string;
}.

Inductive UsersReply : Type :=
| Registered (id email : string) (created : Z)
| LoggedIn (token : string)
| UsersError (status : Z) (error : string).

Section users.
Context `{Accounts}.

(** [users.post('/register', ...)]; [newId] and [now] are the [id] and
    [created_at] that the database gives the new row. *)
Definition register (email password : option string) (newId : string)
    (now : Z) (users : gmap string User) (e : Entropy)
    : UsersReply * gmap string User * Entropy :=
  match email, password with
  | Some em, Some pw =>
      if falsy email || falsy password
         || bool_decide (String.length pw < 8)%nat
      then (UsersError 400
              "email and password are required, and password must be at least 8 characters long",
            users, e)
      else
        let '(salt, e') := randomBytes 16 e in
        let hashedPassword := bcrypt_hash pw salt in
        match users !! em with
        | Some _ => (UsersError 409 "this email already exists", users, e')
        | None =>
            (Registered newId em now,
             <[em := MkUser newId hashedPassword now]> users, e')
        end
  | _, _ =>
      (UsersError 400
         "email and password are required, and password must be at least 8 characters long",
       users, e)
  end.

(** [users.post('/login', ...)]; [nowMs] is [Date.now()]. *)
Definition login (email password : option string) (nowMs : Z)
    (users : gmap string User) : UsersReply :=
  match email, password with
  | Some em, Some pw =>
      if falsy email || falsy password
      then UsersError 400 "email and password are required"
      else
        match users !! em with
        | None => UsersError 401 "invalid email or password"
        | Some user =>
            if bool_decide (bcrypt_compare pw (password_hash user) = false)
            then UsersError 401 "invalid email or password"
            else
              match jwt_sign (MkClaims (uid user) em
                                (nowMs / 1000 + 60 * 60 * 24)) with
              | Ok token => LoggedIn token
              | Throws _ =>
                  UsersError 500 "login failed, server internal error"
              end
        end
  | _, _ => UsersError 400 "email and password are required"
  end.
End users.

(** ** [src/routes/orders.ts] *)

Class Stripe : Type := {
  (** [stripe.paymentIntents.create({amount, currency: 'usd', metadata:
      {userId}})]: the [id] and the [client_secret] of the intent *)
  paymentIntents_create : Z → string → Res (string * string);
}.

Inductive OrderReply : Type :=
| OrderCreated (orderId clientSecret : string)
| OrderError (status : Z) (error : string).

Section orders.
Context `{Stripe}.

(** [orders.post('/', ...)] behind the JWT middleware, [userId] being the
    [sub] of the verified token.  [prices] is the column [price_cents] of
    [books]; [newId] is the [id] that the database gives the new row.  The
    third component lists the amounts of the payment intents created.

    Modelled from the spec: the columns that the [INSERT] leaves out get
    the defaults of the schema, which is not among the sources: status
    [pending] and no nullifier. *)
Definition post_order (userId : string) (commitmentHash : option string)
    (priceInCents : option Z) (prices : list Z) (newId : string)
    (t : gmap string Purchase)
    : OrderReply * gmap string Purchase * list Z :=
  match commitmentHash, priceInCents with
  | Some c, Some price =>
      if falsy commitmentHash || bool_decide (price = 0)
      then (OrderError 400 "commitmentHash and priceInCents are required",
            t, [])
      else if bool_decide (price ∉ prices)
      then (OrderError 400 "Invalid payment amount", t, [])
      else
        match paymentIntents_create price userId with
        | Ok (intent, clientSecret) =>
            match t !! newId with
            | None =>
                (OrderCreated newId clientSecret,
                 <[newId := MkPurchase userId intent c pending None]> t,
                 [price])
            | Some _ => (OrderError 500 "Failed to create order", t, [price])
            end
        | Throws _ => (OrderError 500 "Failed to create order", t, [])
        end
  | _, _ =>
      (OrderError 400 "commitmentHash and priceInCents are required", t, [])
  end.
End orders.

(** ** [src/index.ts]: the WebSocket route *)

(** [p] removed from the front of [s], if [s] starts with it. *)
Fixpoint strip_prefix (p s : string) : option string :=
  match p, s with
  | EmptyString, _ => Some s
  | String a p', String b s' =>
      if bool_decide (a = b) then strip_prefix p' s' else None
  | String _ _, EmptyString => None
  end.

(** The characters that [.] does not match, among the 8-bit characters of
    the model: line feed and carriage return. *)
Definition line_terminator (c : ascii) : bool :=
  bool_decide (c = "010"%char) || bool_decide (c = "013"%char).

(** What a greedy [.*] matches at the start of [s]. *)
Fixpoint dot_star (s : string) : string :=
  match s with
  | EmptyString => EmptyString
  | String c s' =>
      if line_terminator c then EmptyString else String c (dot_star s')
  end.

Inductive WsRoute : Type :=
| ToPurchase (purchaseId : string)
| Refused (code : Z) (reason : string).

(** [wss.on('connection', ...)]: the match of
    [/^\/ws\/api\/purchase\/(.+)/] on the path name of the request. *)
Definition on_connection (pathname : option string) : WsRoute :=
  match pathname with
  | Some path =>
      match strip_prefix "/ws/api/purchase/" path with
      | Some rest =>
          if bool_decide (dot_star rest = "")
          then Refused 1011 "Invalid WebSocket endpoint"
          else ToPurchase (dot_star rest)
      | None => Refused 1011 "Invalid WebSocket endpoint"
      end
  | None => Refused 1011 "Invalid WebSocket endpoint"
  end.

(** ** [src/routes/books.ts]: the search *)

(** The statement and the parameters that [books.get('/', ...)] passes to
    [pool.query], from the [query] and [type] of the request. *)
Definition books_search (query type : option string) : string * list string :=
  let sqlQuery :=
    "SELECT id, title, author, description, price_cents FROM books" in
  match query with
  | Some q =>
      if falsy query then (sqlQuery, [])
      else
        match type with
        | Some ty =>
            if bool_decide (ty = "title") || bool_decide (ty = "author")
            then (sqlQuery +:+ " WHERE " +:+ ty +:+ " ILIKE $1",
                  ["%" +:+ q +:+ "%"])
            else (sqlQuery +:+ " WHERE title ILIKE $1 OR author ILIKE $1",
                  ["%" +:+ q +:+ "%"])
        | None =>
            (sqlQuery +:+ " WHERE title ILIKE $1 OR author ILIKE $1",
             ["%" +:+ q +:+ "%"])
        end
  | None => (sqlQuery, [])
  end.

(** ** [src/upload.ts] *)

Class Host : Type := {
  (** [existsSync(path)] and [readFileSync(path)] *)
  existsSync : string → bool;
  readFileSync : string → Res Buffer;
  (** [path.basename(p, path.extname(p))] and [path.extname(p)] *)
  path_stem : string → string;
  path_extname : string → string;
  (** [s3Client.send(new PutObjectCommand({Bucket, Key, Body, ...}))] *)
  putObject : string → string → Buffer → Res ();
}.

(** What [uploadEncryptedBook] prints at its end. *)
Record Uploaded : Type := MkUploaded {
  printed_secret_key : string;
  printed_file_key : string;
  uploaded_body : Buffer;
}.

Section upload.
Context `{Crypto} `{Host}.

(** [encrypt(buffer, key)] *)
Definition encrypt (buffer key : Buffer) : Rand Buffer :=
  iv ← draw 12;
  '(encrypted, authTag) ← lift (aes_256_gcm key iv buffer);
  mret (iv ++ encrypted ++ authTag).

(** [uploadEncryptedBook(filePath)]: [None] when the [catch] ran;
    [bucket] is [R2_BUCKET_NAME] and [nowMs] is [Date.now()]. *)
Definition uploadEncryptedBook (bucket filePath : string) (nowMs : Z)
    (e : Entropy) : option Uploaded * Entropy :=
  if existsSync filePath then
    let '(secretKey, e1) := randomBytes 32 e in
    match readFileSync filePath with
    | Ok fileBuffer =>
        match encrypt fileBuffer secretKey e1 with
        | (Ok encryptedBuffer, e2) =>
            let fileKey :=
              path_stem filePath +:+ "_" +:+ pretty nowMs
              +:+ path_extname filePath +:+ ".encrypted" in
            match putObject bucket fileKey encryptedBuffer with
            | Ok _ =>
                (Some (MkUploaded (hex_encode secretKey) fileKey
                         encryptedBuffer), e2)
            | Throws _ => (None, e2)
            end
        | (Throws _, e2) => (None, e2)
        end
    | Throws _ => (None, e1)
    end
  else (None, e).
End upload.

(** A string without line terminator. *)
Fixpoint single_line (s : string) : bool :=
  match s with
  | EmptyString => true
  | String c s' => negb (line_terminator c) && single_line s'
  end.

(** ** Stand-ins for the further interfaces *)

Module Demo.

(** The password, a colon and the salt in hexadecimal; the comparison
    looks for the password and the colon at the front of the hash. *)
#[local] Instance accounts : Accounts := {|
  bcrypt_hash pw salt := (pw +:+ ":") +:+ Sample.to_hex salt;
  bcrypt_compare pw h := bool_decide (is_Some (strip_prefix (pw +:+ ":") h));
  jwt_sign claims :=
    if bool_decide (claim_sub claims = "") then Throws ""
    else Ok ("jwt-" +:+ claim_email claims);
|}.

#[local] Instance stripe : Stripe := {|
  paymentIntents_create amount userId :=
    if bool_decide (0 < amount) then Ok ("pi_" +:+ pretty amount, "secret")
    else Throws "";
|}.

#[local] Instance host : Host := {|
  existsSync p := bool_decide (p = "book.pdf");
  readFileSync p :=
    if bool_decide (p = "book.pdf") then Ok [37; 80; 68; 70] else Throws "";
  path_stem _ := "book";
  path_extname _ := ".pdf";
  putObject _ _ _ := Ok ();
|}.

Definition no_users : gmap string User := ∅.

Definition alice_row : User := MkUser "u1" "correct horse:00" 0.

Definition catalog_prices : list Z := [500; 900].

(** The purchase of a session after its proof was accepted. *)
Definition verified_row : Purchase :=
  MkPurchase "alice" "pi_1" "C" verified (Some "42").

End Demo.

(** * Properties *)

(** ** Randomness and the monad *)

Lemma randomBytes_length n e : length (randomBytes n e).1 = n.
Proof. cbn. by rewrite length_map, length_seq. Qed.

Lemma randomBytes_bytes n e : Forall is_byte (randomBytes n e).1.
Proof.
  cbn. apply Forall_forall. intros x Hx.
  apply list_elem_of_fmap in Hx as (k & -> & _).
  unfold is_byte. apply Z.mod_pos_bound. lia.
Qed.

Lemma bind_Ok {A B} (m : Rand A) (k : A → Rand B) e a e' :
  m e = (Ok a, e') → (m ≫= k) e = k a e'.
Proof. intros Hm. unfold mbind, Rand_bind. by rewrite Hm. Qed.

(** ** [aesGcmEncrypt] *)

Section aesGcmEncrypt_facts.
Context `{Crypto}.

(** The function unfolded: the nonce is the next twelve bytes of the
    entropy source, and the result the concatenation of nonce, ciphertext
    and tag. *)
Lemma aesGcmEncrypt_unfold key pt e :
  aesGcmEncrypt key pt e =
    match aes_256_gcm key (randomBytes 12 e).1 pt with
    | Ok (ct, tag) =>
        (Ok ((randomBytes 12 e).1 ++ ct ++ tag), (randomBytes 12 e).2)
    | Throws c => (Throws c, (randomBytes 12 e).2)
    end.
Proof.
  unfold aesGcmEncrypt, mbind, Rand_bind, draw, lift, mret, Rand_ret. cbn.
  by destruct (aes_256_gcm _ _ _) as [[ct tag]|c].
Qed.

Context `{!CryptoLaws}.

Lemma aesGcmEncrypt_Ok key pt e :
  length key = 32%nat →
  ∃ ct tag,
    aes_256_gcm key (randomBytes 12 e).1 pt = Ok (ct, tag)
    ∧ length ct = length pt ∧ length tag = 16%nat
    ∧ aesGcmEncrypt key pt e =
        (Ok ((randomBytes 12 e).1 ++ ct ++ tag), (randomBytes 12 e).2).
Proof.
  intros Hk.
  destruct (aes_256_gcm_accepts key (randomBytes 12 e).1 pt Hk
              (randomBytes_length 12 e)) as (ct & tag & Hc & Hct & Htag).
  exists ct, tag. repeat split; try done.
  by rewrite aesGcmEncrypt_unfold, Hc.
Qed.

(** C9.  For every AES-256 key (32 bytes) and every plaintext,
    [aesGcmEncrypt] draws a 12-byte nonce from the random generator (the
    next twelve bytes, which it consumes) and returns exactly
    nonce ∥ ciphertext ∥ tag, where ciphertext and the 16-byte tag are what
    AES-256-GCM produces for this key, nonce and plaintext; the result has
    length 12 + length(plaintext) + 16 and the nonce is its first twelve
    bytes. *)
Theorem aesGcmEncrypt_layout key pt e :
  length key = 32%nat →
  ∃ nonce ct tag e',
    aesGcmEncrypt key pt e = (Ok (nonce ++ ct ++ tag), e')
    ∧ (nonce, e') = randomBytes 12 e
    ∧ length nonce = 12%nat
    ∧ cursor e' = (cursor e + 12)%nat
    ∧ aes_256_gcm key nonce pt = Ok (ct, tag)
    ∧ length tag = 16%nat
    ∧ length (nonce ++ ct ++ tag) = (12 + length pt + 16)%nat
    ∧ take 12 (nonce ++ ct ++ tag) = nonce.
Proof.
  intros Hk.
  destruct (aesGcmEncrypt_Ok key pt e Hk) as (ct & tag & Hc & Hct & Htag & Hr).
  exists (randomBytes 12 e).1, ct, tag, (randomBytes 12 e).2.
  pose proof (randomBytes_length 12 e) as Hn.
  split_and!; try done.
  rewrite !length_app. lia.
Qed.
End aesGcmEncrypt_facts.

(** ** JavaScript's 32-bit operators *)

Lemma ToInt32_mod x : ToInt32 x `mod` 2 ^ 32 = x `mod` 2 ^ 32.
Proof.
  unfold ToInt32.
  rewrite Zminus_mod, Zmod_mod, <- Zminus_mod.
  f_equal. lia.
Qed.

Lemma ToInt32_testbit x j : 0 ≤ j < 32 → Z.testbit (ToInt32 x) j = Z.testbit x j.
Proof.
  intros Hj.
  rewrite <- (Z.mod_pow2_bits_low (ToInt32 x) 32 j) by lia.
  rewrite <- (Z.mod_pow2_bits_low x 32 j) by lia.
  by rewrite ToInt32_mod.
Qed.

Lemma ToInt32_small x : - 2 ^ 31 ≤ x < 2 ^ 31 → ToInt32 x = x.
Proof. intros Hx. unfold ToInt32. rewrite Z.mod_small; lia. Qed.

Lemma land_1 y : Z.land y 1 = Z.b2z (Z.testbit y 0).
Proof.
  change 1 with (Z.ones 1). rewrite Z.land_ones by lia.
  change (2 ^ 1) with 2. symmetry. apply Z.bit0_mod.
Qed.

(** [(i >> j) & 1] is bit [j] of [i], for a shift below 32. *)
Lemma choiceBit_testbit i j :
  (j < 32)%nat →
  choiceBit i j = Z.b2z (Z.testbit (Z.of_nat i) (Z.of_nat j)).
Proof.
  intros Hj. unfold choiceBit, js_and, js_shr.
  rewrite (Z.mod_small (Z.of_nat j) 32) by lia.
  rewrite (ToInt32_small 1) by lia.
  rewrite land_1, ToInt32_testbit by lia.
  rewrite Z.shiftr_spec by lia.
  rewrite ToInt32_testbit by lia. done.
Qed.

Lemma lxor_byte a b : is_byte a → is_byte b → is_byte (Z.lxor a b).
Proof.
  unfold is_byte. intros Ha Hb.
  assert (0 ≤ Z.lxor a b) as Hnn by (apply Z.lxor_nonneg; lia).
  split; [done|].
  destruct (decide (Z.lxor a b = 0)) as [->|Hne]; [lia|].
  change 256 with (2 ^ 8). apply Z.log2_lt_pow2; [lia|].
  pose proof (Z.log2_lxor a b ltac:(lia) ltac:(lia)) as Hl.
  assert (Z.log2 a < 8).
  { destruct (decide (a = 0)) as [->|]; [done|]. apply Z.log2_lt_pow2; lia. }
  assert (Z.log2 b < 8).
  { destruct (decide (b = 0)) as [->|]; [done|]. apply Z.log2_lt_pow2; lia. }
  lia.
Qed.

(** On bytes, the stored value [masterKeyByte ^ seedByte] is the
    exclusive-or. *)
Lemma xor_store_byte a b :
  is_byte a → is_byte b → to_uint8 (js_xor a b) = Z.lxor a b.
Proof.
  intros Ha Hb. unfold to_uint8, js_xor.
  rewrite !ToInt32_small by (unfold is_byte in *; lia).
  apply Z.mod_small. by apply lxor_byte.
Qed.

(** ** The master key of an item *)

Lemma xor_into_length mk seed : length (xor_into mk seed) = length mk.
Proof.
  unfold xor_into. generalize (seq 0 32). intros l. revert mk.
  induction l as [|k l IH]; intros mk; [done|]. cbn [foldl].
  rewrite IH. destruct (mk !! k), (seed !! k); by rewrite ?length_insert.
Qed.

(** After [n] turns of the loop the first [n] bytes are combined and the
    others untouched. *)
Lemma xor_loop_prefix (mk seed : Buffer) (n : nat) :
  length mk = length seed → (n ≤ length mk)%nat →
  foldl (λ mk k,
           match mk !! k, seed !! k with
           | Some masterKeyByte, Some seedByte =>
               <[k := to_uint8 (js_xor masterKeyByte seedByte)]> mk
           | _, _ => mk
           end) mk (seq 0 n)
  = zip_with (λ a b, to_uint8 (js_xor a b)) (take n mk) (take n seed)
    ++ drop n mk.
Proof.
  intros Hlen. induction n as [|n IH]; intros Hn.
  - by rewrite !take_0, drop_0.
  - rewrite seq_S, foldl_app, IH by lia. cbn [foldl]. clear IH.
    change (0 + n)%nat with n.
    destruct (lookup_lt_is_Some_2 mk n ltac:(lia)) as [a Ha].
    destruct (lookup_lt_is_Some_2 seed n ltac:(lia)) as [b Hb].
    assert (length (zip_with (λ a b, to_uint8 (js_xor a b))
                      (take n mk) (take n seed)) = n) as Hz.
    { rewrite length_zip_with, !length_take. lia. }
    rewrite lookup_app_r by lia. rewrite Hz, Nat.sub_diag.
    rewrite lookup_drop, Nat.add_0_r, Ha, Hb.
    rewrite insert_app_r_alt by lia. rewrite Hz, Nat.sub_diag.
    rewrite (drop_S mk a n Ha). cbn [insert list_insert].
    rewrite (take_S_r mk n a Ha), (take_S_r seed n b Hb).
    rewrite zip_with_app by (rewrite !length_take; lia).
    cbn [zip_with]. by rewrite <- app_assoc.
Qed.

Lemma zip_xor_bytes (a b : Buffer) :
  Forall is_byte a → Forall is_byte b →
  zip_with (λ x y, to_uint8 (js_xor x y)) a b = xor_bytes a b
  ∧ Forall is_byte (xor_bytes a b).
Proof.
  intros Ha. revert b. induction Ha as [|x a Hx Ha IH]; intros b Hb.
  - by split.
  - destruct Hb as [|y b Hy Hb]; [by split|].
    destruct (IH b Hb) as [IH1 IH2]. unfold xor_bytes in *. cbn [zip_with].
    split.
    + by rewrite IH1, xor_store_byte.
    + constructor; [by apply lxor_byte | done].
Qed.

(** With 32 bytes on each side the loop is the byte-wise exclusive-or. *)
Lemma xor_into_spec mk seed :
  length mk = 32%nat → length seed = 32%nat →
  Forall is_byte mk → Forall is_byte seed →
  xor_into mk seed = xor_bytes mk seed
  ∧ length (xor_bytes mk seed) = 32%nat
  ∧ Forall is_byte (xor_bytes mk seed).
Proof.
  intros Hm Hs Hbm Hbs. unfold xor_into.
  rewrite xor_loop_prefix by lia.
  rewrite <- Hm at 1 3. rewrite <- Hs at 1.
  rewrite !firstn_all, drop_all, app_nil_r.
  destruct (zip_xor_bytes mk seed Hbm Hbs) as [-> Hb].
  split_and!; [done| |done].
  unfold xor_bytes. rewrite length_zip_with. lia.
Qed.

Section master_key.
Context `{Crypto}.

Lemma masterKey_of_length o i : length (masterKey_of o i) = 32%nat.
Proof.
  unfold masterKey_of. generalize (seq 0 (choiceBitCount o)). intros l.
  assert (length (Buffer_alloc 32) = 32%nat) as Hz by done.
  revert Hz. generalize (Buffer_alloc 32).
  induction l as [|j l IH]; intros mk Hmk; [done|]. cbn [foldl].
  apply IH. destruct (roundSeeds o !! j); [|done].
  by rewrite xor_into_length.
Qed.

(** With no round the master key is what [Buffer.alloc(32)] returned. *)
Lemma masterKey_of_no_round o i :
  choiceBitCount o = 0%nat → masterKey_of o i = replicate 32 0.
Proof. intros Hb. unfold masterKey_of. by rewrite Hb. Qed.

(** The code's choice between the two seeds. *)
Lemma chosen_seed i j seeds :
  (j < 32)%nat →
  (if bool_decide (choiceBit i j = 0) then seed0 seeds else seed1 seeds)
  = selected_seed i j seeds.
Proof.
  intros Hj. unfold selected_seed. rewrite choiceBit_testbit by done.
  by destruct (Z.testbit _ _).
Qed.

Lemma masterKey_loop_prefix o i n :
  Forall seeds_wf (roundSeeds o) →
  (n ≤ length (roundSeeds o))%nat → (n ≤ 32)%nat →
  let mk :=
    foldl (λ mk j,
             match roundSeeds o !! j with
             | Some seeds =>
                 xor_into mk
                   (if bool_decide (choiceBit i j = 0)
                    then seed0 seeds else seed1 seeds)
             | None => mk
             end) (Buffer_alloc 32) (seq 0 n) in
  mk = item_key (take n (roundSeeds o)) i
  ∧ length mk = 32%nat ∧ Forall is_byte mk.
Proof.
  intros Hwf. induction n as [|n IH]; intros Hn H32.
  - cbn [seq foldl]. rewrite take_0. unfold item_key, Buffer_alloc.
    cbn [imap foldl].
    split_and!; [done | by rewrite length_replicate |].
    apply Forall_replicate. unfold is_byte. lia.
  - cbn zeta in *. rewrite seq_S, foldl_app. cbn [foldl].
    destruct (IH ltac:(lia) ltac:(lia)) as (IH1 & IH2 & IH3). clear IH.
    destruct (lookup_lt_is_Some_2 (roundSeeds o) n ltac:(lia)) as [s Hs].
    rewrite Nat.add_0_l, Hs. rewrite chosen_seed by lia.
    pose proof (proj1 (Forall_lookup _ _) Hwf n s Hs) as (L0 & L1 & B0 & B1).
    assert (length (selected_seed i n s) = 32%nat
            ∧ Forall is_byte (selected_seed i n s)) as [Ls Bs].
    { unfold selected_seed. by destruct (Z.testbit _ _). }
    destruct (xor_into_spec _ _ IH2 Ls IH3 Bs) as (-> & Hl & Hb).
    split_and!; [|done..].
    rewrite (take_S_r _ _ _ Hs). unfold item_key.
    rewrite imap_app, foldl_app. cbn [imap foldl].
    rewrite length_take, Nat.min_l, Nat.add_0_r by lia.
    f_equal. exact IH1.
Qed.

(** The master key that [sendFinalSecrets] computes for item [i] is the
    exclusive-or of the seeds that the bits of [i] select. *)
Lemma masterKey_of_spec o i :
  sender_wf o → masterKey_of o i = item_key (roundSeeds o) i.
Proof.
  intros (Hlen & H32 & Hwf).
  destruct (masterKey_loop_prefix o i (choiceBitCount o) Hwf
              ltac:(lia) H32) as (Hk & _).
  unfold masterKey_of. rewrite Hk.
  by rewrite <- Hlen, firstn_all.
Qed.
End master_key.

(** ** [sendFinalSecrets] *)

Section sendFinalSecrets_facts.
Context `{Crypto} `{!CryptoLaws}.

Lemma nonce_at_0 e : nonce_at e 0 = (randomBytes 12 e).1.
Proof. unfold nonce_at. cbn [randomBytes fst]. by rewrite Nat.add_0_r. Qed.

(** The loop over the items [a, a + n): every item is encrypted under its
    master key with the next nonce of the entropy source and appended in
    turn. *)
Lemma encrypt_items_spec o n : ∀ a acc e,
  (a + n ≤ length (bookSecrets o))%nat →
  ∃ l,
    encrypt_items o (seq a n) acc e
      = (Ok (acc ++ l), MkEntropy (stream e) (cursor e + 12 * n))
    ∧ length l = n
    ∧ ∀ k, (k < n)%nat →
        ∃ secret ct tag,
          bookSecrets o !! (a + k)%nat = Some secret
          ∧ aes_256_gcm (masterKey_of o (a + k)) (nonce_at e k) secret
              = Ok (ct, tag)
          ∧ l !! k = Some (hex_encode (nonce_at e k ++ ct ++ tag)).
Proof.
  induction n as [|n IH]; intros a acc e Ha.
  - exists []. split_and!.
    + cbn. rewrite app_nil_r, Nat.add_0_r. by destruct e.
    + done.
    + intros k Hk. lia.
  - cbn [seq encrypt_items].
    destruct (lookup_lt_is_Some_2 (bookSecrets o) a ltac:(lia))
      as [secret Hsec].
    rewrite Hsec.
    destruct (aesGcmEncrypt_Ok (masterKey_of o a) secret e
                (masterKey_of_length o a))
      as (ct & tag & Hc & _ & _ & Hr).
    rewrite (bind_Ok _ _ _ _ _ Hr).
    destruct (IH (S a) (acc ++ [hex_encode ((randomBytes 12 e).1 ++ ct ++ tag)])
                (randomBytes 12 e).2 ltac:(lia)) as (l & Hl & Hlen & Hk).
    exists (hex_encode ((randomBytes 12 e).1 ++ ct ++ tag) :: l).
    split_and!.
    + rewrite Hl, <- app_assoc. cbn [app randomBytes snd stream cursor].
      do 2 f_equal. lia.
    + cbn. by rewrite Hlen.
    + intros [|k] Hlt.
      * exists secret, ct, tag. rewrite Nat.add_0_r, nonce_at_0. done.
      * destruct (Hk k ltac:(lia)) as (sec' & ct' & tag' & H1 & H2 & H3).
        assert (nonce_at (randomBytes 12 e).2 k = nonce_at e (S k)) as Hn.
        { unfold nonce_at. cbn [randomBytes snd stream cursor].
          do 2 f_equal. lia. }
        rewrite Hn in H2, H3.
        replace (a + S k)%nat with (S a + k)%nat by lia.
        by exists sec', ct', tag'.
Qed.

(** [sendFinalSecrets] succeeds on every sender: it sends one
    [OT_DELIVER] that holds, for every item in order, the item's secret
    encrypted under the item's master key. *)
Lemma sendFinalSecrets_spec o e :
  ∃ l,
    sendFinalSecrets o e
      = (Ok [WsSend (OT_DELIVER l)],
         MkEntropy (stream e) (cursor e + 12 * length (bookSecrets o)))
    ∧ length l = length (bookSecrets o)
    ∧ ∀ i secret, bookSecrets o !! i = Some secret →
        ∃ ct tag,
          aes_256_gcm (masterKey_of o i) (nonce_at e i) secret = Ok (ct, tag)
          ∧ l !! i = Some (hex_encode (nonce_at e i ++ ct ++ tag)).
Proof.
  destruct (encrypt_items_spec o (length (bookSecrets o)) 0 [] e ltac:(lia))
    as (l & Hl & Hlen & Hk).
  exists l. split_and!; [|done|].
  - unfold sendFinalSecrets. by rewrite (bind_Ok _ _ _ _ _ Hl).
  - intros i secret Hi.
    destruct (Hk i (lookup_lt_Some _ _ _ Hi)) as (sec' & ct & tag & H1 & H2 & H3).
    cbn [Nat.add] in *. rewrite Hi in H1. simplify_eq. by exists ct, tag.
Qed.
End sendFinalSecrets_facts.

(** ** The constructor *)

Lemma draw_seeds_length n e : length (draw_seeds n e).1 = n.
Proof.
  revert e. induction n as [|n IH]; intros e; [done|].
  cbn [draw_seeds]. cbn [randomBytes].
  specialize (IH (MkEntropy (stream e) (cursor e + 32 + 32))).
  destruct (draw_seeds n _) as [rest e3]. cbn in *. by rewrite IH.
Qed.

Lemma draw_seeds_wf n e : Forall seeds_wf (draw_seeds n e).1.
Proof.
  revert e. induction n as [|n IH]; intros e; [by constructor|].
  cbn [draw_seeds].
  pose proof (randomBytes_length 32 e) as L0.
  pose proof (randomBytes_bytes 32 e) as B0.
  destruct (randomBytes 32 e) as [s0 e1].
  pose proof (randomBytes_length 32 e1) as L1.
  pose proof (randomBytes_bytes 32 e1) as B1.
  destruct (randomBytes 32 e1) as [s1 e2].
  specialize (IH e2). destruct (draw_seeds n e2) as [rest e3].
  cbn [fst] in *. constructor; [|done]. by split_and!.
Qed.

(** [ceil(log2 n)] is the least exponent [b] with [n ≤ 2^b]. *)
Lemma Math_ceil_log2_spec n :
  (1 < n)%nat →
  let b := Math_ceil_log2 n in
  (0 < b)%nat ∧ (2 ^ (b - 1) < n)%nat ∧ (n ≤ 2 ^ b)%nat.
Proof.
  intros Hn b. subst b. unfold Math_ceil_log2.
  pose proof (Z.log2_up_spec (Z.of_nat n) ltac:(lia)) as [Hlo Hhi].
  pose proof (Z.log2_up_pos (Z.of_nat n) ltac:(lia)) as Hpos.
  set (z := Z.log2_up (Z.of_nat n)) in *.
  split_and!.
  - lia.
  - apply Nat2Z.inj_lt. rewrite Nat2Z.inj_pow.
    rewrite Nat2Z.inj_sub by lia. rewrite Z2Nat.id by lia.
    replace (z - Z.of_nat 1) with (Z.pred z) by lia. exact Hlo.
  - apply Nat2Z.inj_le. rewrite Nat2Z.inj_pow.
    rewrite Z2Nat.id by lia. exact Hhi.
Qed.

Lemma Math_ceil_log2_le_32 n :
  (Z.of_nat n ≤ 2 ^ 32) → (Math_ceil_log2 n ≤ 32)%nat.
Proof.
  intros Hn. unfold Math_ceil_log2.
  destruct (decide (n ≤ 1)%nat) as [Hs|Hl].
  - rewrite Z.log2_up_eqn0 by lia. cbn. lia.
  - pose proof (Z.log2_up_le_mono (Z.of_nat n) (2 ^ 32) Hn) as Hm.
    rewrite Z.log2_up_pow2 in Hm by lia. lia.
Qed.

Section constructor_facts.
Context `{Crypto}.

Lemma new_sender_fields books e :
  let o := (new_SemiHonestOtSender books e).1 in
  bookSecrets o = map (λ b, hex_decode (secret_key b)) books
  ∧ choiceBitCount o
    = (if bool_decide (1 < length books)%nat
       then Math_ceil_log2 (length books) else 0%nat)
  ∧ currentRound o = 0%nat
  ∧ roundSeeds o = (draw_seeds (choiceBitCount o) e).1.
Proof.
  unfold new_SemiHonestOtSender.
  destruct (draw_seeds _ e) as [seeds e'] eqn:Hd. cbn.
  split_and!; try done. by rewrite Hd.
Qed.

Lemma new_sender_inv books e :
  sender_inv (new_SemiHonestOtSender books e).1.
Proof.
  destruct (new_sender_fields books e) as (_ & _ & Hc & Hs).
  unfold sender_inv. rewrite Hc, Hs, draw_seeds_length. lia.
Qed.

Lemma new_sender_wf books e :
  Z.of_nat (length books) < 2 ^ 32 →
  sender_wf (new_SemiHonestOtSender books e).1.
Proof.
  intros Hn.
  destruct (new_sender_fields books e) as (_ & Hb & _ & Hs).
  unfold sender_wf. rewrite Hs. split_and!.
  - apply draw_seeds_length.
  - rewrite Hb. case_bool_decide; [|lia].
    apply Math_ceil_log2_le_32. lia.
  - apply draw_seeds_wf.
Qed.
End constructor_facts.

(** ** The oblivious-transfer engine *)

Section engine.
Context `{Crypto}.

(** A response is either accepted, which sends the challenge and advances
    the round counter by one, or refused, which closes the socket and
    leaves the sender as it was.  The counter thus counts the accepted
    responses. *)
Lemma processRoundResponse_cases o round key e :
  let '(o', evs, e') := processRoundResponse o round key e in
  (round = Z.of_nat (currentRound o)
   ∧ (currentRound o < length (roundSeeds o))%nat
   ∧ currentRound o' = S (currentRound o)
   ∧ choiceBitCount o' = choiceBitCount o
   ∧ roundSeeds o' = roundSeeds o
   ∧ bookSecrets o' = bookSecrets o
   ∧ (∃ g0 g1 e0 e1 rest,
        evs = WsSend (OT_ROUND_CHALLENGE (currentRound o) g0 g1 e0 e1) :: rest
        ∧ Forall (λ ev, is_deliver ev = false ∧ is_close ev = false) rest))
  ∨ (o' = o ∧ ∃ reason, evs = [WsClose 1011 reason]).
Proof.
  unfold processRoundResponse. case_bool_decide as Hr.
  { right. eauto. }
  destruct (roundSeeds o !! currentRound o) as [seeds|] eqn:Hs.
  2:{ right. eauto. }
  destruct (round_challenge _ _ _ e) as [[challenge|c] e'] eqn:Hc.
  2:{ right. eauto. }
  left. cbn. split_and!; try done.
  { by eapply lookup_lt_Some. }
  unfold round_challenge in Hc.
  unfold mbind, Rand_bind, generateServerOtKeyPair, lift, mret, Rand_ret in Hc.
  repeat match type of Hc with
  | context [let '(_, _) := ?x in _] => destruct x
  | context [match ?x with _ => _ end] => destruct x eqn:?; try discriminate
  end.
  simplify_eq. do 5 eexists. split; [done|].
  case_bool_decide; repeat constructor.
Qed.

(** C7.  A round response whose round number differs from the round the
    engine expects is refused with the round-mismatch close (code 1011),
    and nothing advances: the sender, with its round counter and seeds,
    is unchanged, no challenge is sent, so no seed is encrypted, and no
    randomness is drawn.  The session that holds the sender is left as it
    was, but for the close of its socket. *)
Theorem processRoundResponse_round_mismatch o round key e :
  round ≠ Z.of_nat (currentRound o) →
  processRoundResponse o round key e
  = (o, [WsClose 1011 "[OT] round mismatch."], e)
  ∧ ∀ s w, otSender s = Some o → entropy w = e →
      handle_OT_ROUND_RESPONSE s w round key
      = (s, w, [WsClose 1011 "[OT] round mismatch."]).
Proof.
  intros Hne.
  assert (processRoundResponse o round key e
          = (o, [WsClose 1011 "[OT] round mismatch."], e)) as Hp.
  { unfold processRoundResponse. by rewrite bool_decide_true. }
  split; [exact Hp|].
  intros s w Ho He. unfold handle_OT_ROUND_RESPONSE.
  rewrite Ho, He, Hp, <- He, <- Ho. by destruct s, w.
Qed.
End engine.

Section deliver.
Context `{Crypto} `{!CryptoLaws}.

(** C5.  For a sender built from a catalog of [N < 2^32] books, whatever
    its round counter, [sendFinalSecrets] sends one [OT_DELIVER] with [N]
    ciphertexts in catalog order: entry [i] is the secret key of book [i]
    encrypted under the master key of [i], and that master key is the
    byte-wise exclusive-or of the round seeds selected by the binary
    digits of [i], [seed1] of round [j] where bit [j] of [i], which is
    [(i >> j) & 1], is 1, else [seed0]. *)
Theorem sendFinalSecrets_item_keys books e c e2 :
  Z.of_nat (length books) < 2 ^ 32 →
  let o0 := (new_SemiHonestOtSender books e).1 in
  let o := MkSender (bookSecrets o0) (choiceBitCount o0) c (roundSeeds o0) in
  ∃ l,
    (sendFinalSecrets o e2).1 = Ok [WsSend (OT_DELIVER l)]
    ∧ length l = length books
    ∧ ∀ i book, books !! i = Some book →
        masterKey_of o i = item_key (roundSeeds o) i
        ∧ (∀ j, (j < choiceBitCount o)%nat →
             choiceBit i j = Z.b2z (Z.testbit (Z.of_nat i) (Z.of_nat j)))
        ∧ ∃ ct tag,
            aes_256_gcm (item_key (roundSeeds o) i) (nonce_at e2 i)
              (hex_decode (secret_key book)) = Ok (ct, tag)
            ∧ l !! i = Some (hex_encode (nonce_at e2 i ++ ct ++ tag)).
Proof.
  intros HN o0 o.
  pose proof (new_sender_wf books e HN) as Hwf0.
  destruct (new_sender_fields books e) as (Hsec & _ & _ & _).
  fold o0 in Hwf0, Hsec.
  assert (sender_wf o) as Hwf by exact Hwf0.
  destruct (sendFinalSecrets_spec o e2) as (l & Hl & Hlen & Hitems).
  exists l. split_and!.
  - by rewrite Hl.
  - rewrite Hlen. cbn. by rewrite Hsec, length_map.
  - intros i book Hi.
    assert (bookSecrets o !! i = Some (hex_decode (secret_key book))) as Hb.
    { cbn. by rewrite Hsec, list_lookup_fmap, Hi. }
    destruct (Hitems i _ Hb) as (ct & tag & Hc & Hli).
    rewrite masterKey_of_spec in Hc by done.
    split_and!.
    + by apply masterKey_of_spec.
    + intros j Hj. apply choiceBit_testbit.
      destruct Hwf as (_ & H32 & _). lia.
    + by exists ct, tag.
Qed.

(** C10.  With no round ([choiceBitCount] 0, which is what the constructor
    sets for a catalog of at most one book) every master key is the 32
    zero bytes of [Buffer.alloc(32)], and [sendFinalSecrets] delivers each
    secret key as an AES-GCM ciphertext under this all-zero key, not in
    the clear. *)
Theorem sendFinalSecrets_zero_key books e e2 :
  (length books ≤ 1)%nat →
  let o := (new_SemiHonestOtSender books e).1 in
  choiceBitCount o = 0%nat
  ∧ (∀ i, masterKey_of o i = replicate 32 0)
  ∧ ∃ l,
      (sendFinalSecrets o e2).1 = Ok [WsSend (OT_DELIVER l)]
      ∧ length l = length books
      ∧ ∀ i book, books !! i = Some book →
          ∃ ct tag,
            aes_256_gcm (replicate 32 0) (nonce_at e2 i)
              (hex_decode (secret_key book)) = Ok (ct, tag)
            ∧ l !! i = Some (hex_encode (nonce_at e2 i ++ ct ++ tag)).
Proof.
  intros HN o.
  destruct (new_sender_fields books e) as (Hsec & Hb & _ & _).
  fold o in Hsec, Hb. rewrite bool_decide_false in Hb by lia.
  split_and!; [done | by intros i; apply masterKey_of_no_round |].
  destruct (sendFinalSecrets_spec o e2) as (l & Hl & Hlen & Hitems).
  exists l. split_and!.
  - by rewrite Hl.
  - by rewrite Hlen, Hsec, length_map.
  - intros i book Hi.
    assert (bookSecrets o !! i = Some (hex_decode (secret_key book))) as Hs.
    { by rewrite Hsec, list_lookup_fmap, Hi. }
    destruct (Hitems i _ Hs) as (ct & tag & Hc & Hli).
    rewrite masterKey_of_no_round in Hc by done. by exists ct, tag.
Qed.

(** C6.  The constructor sets the number of rounds to [b = ceil(log2 N)]
    for [N > 1] books, that is [2^(b-1) < N ≤ 2^b], and to 0 for
    [N ≤ 1].  With one book the sender holds no seeds, every round
    response is refused, and [start] offers no round: it is
    [sendFinalSecrets], which sends at once the one [OT_DELIVER] whose
    single entry is the secret key of that book, as
    nonce ∥ ciphertext ∥ tag under the master key of index 0, the 32 zero
    bytes; the call draws the 12 bytes of the nonce and nothing else. *)
Theorem choiceBitCount_and_single_item books e :
  let o := (new_SemiHonestOtSender books e).1 in
  let N := length books in
  let b := choiceBitCount o in
  ((N ≤ 1)%nat ∧ b = 0%nat
   ∨ (1 < N)%nat ∧ b = Math_ceil_log2 N
     ∧ (0 < b)%nat ∧ (2 ^ (b - 1) < N)%nat ∧ (N ≤ 2 ^ b)%nat)
  ∧ (N = 1%nat →
     roundSeeds o = []
     ∧ (∀ e', start o e' = sendFinalSecrets o e'
              ∧ ∃ c, (start o e').1 = Ok [WsSend (OT_DELIVER [c])])
     ∧ (∀ round key e',
          ∃ reason,
            processRoundResponse o round key e'
            = (o, [WsClose 1011 reason], e'))
     ∧ ∃ book,
         books = [book]
         ∧ masterKey_of o 0 = replicate 32 0
         ∧ ∀ e', ∃ ct tag,
             aes_256_gcm (masterKey_of o 0) (nonce_at e' 0)
               (hex_decode (secret_key book)) = Ok (ct, tag)
             ∧ start o e'
               = (Ok [WsSend (OT_DELIVER
                                [hex_encode (nonce_at e' 0 ++ ct ++ tag)])],
                  MkEntropy (stream e') (cursor e' + 12))).
Proof.
  intros o N b.
  destruct (new_sender_fields books e) as (Hsec & Hb & _ & Hs).
  fold o in Hsec, Hb, Hs. fold b in Hb, Hs. fold N in Hb.
  split.
  - case_bool_decide as HN.
    + right. rewrite Hb.
      destruct (Math_ceil_log2_spec N HN) as (H1 & H2 & H3).
      by split_and!.
    + left. lia.
  - intros HN1. rewrite bool_decide_false in Hb by lia.
    assert (roundSeeds o = []) as Hnil.
    { rewrite Hs, Hb. done. }
    assert (∀ e', start o e' = sendFinalSecrets o e') as Hstart.
    { intros e'. unfold start. by rewrite bool_decide_true. }
    split_and!; [done| | |].
    + intros e'. split; [done|]. rewrite Hstart.
      destruct (sendFinalSecrets_spec o e') as (l & Hl & Hlen & _).
      rewrite Hsec, length_map in Hlen. fold N in Hlen. rewrite HN1 in Hlen.
      destruct l as [|c [|? ?]]; try discriminate.
      exists c. by rewrite Hl.
    + intros round key e'. unfold processRoundResponse.
      case_bool_decide; [by eexists|].
      rewrite Hnil, lookup_nil. by eexists.
    + unfold N in HN1. destruct books as [|book [|? ?]]; try discriminate.
      exists book. split_and!; [done | by apply masterKey_of_no_round |].
      intros e'. rewrite Hstart.
      destruct (sendFinalSecrets_spec o e') as (l & Hl & Hlen & Hitems).
      rewrite Hsec in Hlen, Hitems. cbn in Hlen.
      destruct (Hitems 0%nat _ eq_refl) as (ct & tag & Hc & Hl0).
      destruct l as [|c [|? ?]]; try discriminate.
      cbn in Hl0. injection Hl0 as ->.
      exists ct, tag. split; [done|].
      rewrite Hl, Hsec. cbn [length map]. by rewrite Nat.mul_1_r.
Qed.
End deliver.

(** ** The store: updates that select a row by its primary key *)

Lemma updated_lookup u t id :
  updated u t !! id
  = (λ r, if row_matches u id r then assign u r else r) <$> t !! id.
Proof. unfold updated. rewrite map_lookup_imap. by destruct (t !! id). Qed.

Lemma row_matches_by_id u id0 id r :
  where_key u = ById id0 → row_matches u id r = true → id = id0.
Proof.
  unfold row_matches. intros ->. intros Hm.
  apply andb_true_iff in Hm as [Hm _]. by apply bool_decide_eq_true in Hm.
Qed.

Lemma updated_by_id_hit u id r t :
  where_key u = ById id → t !! id = Some r → row_matches u id r = true →
  updated u t = <[id := assign u r]> t.
Proof.
  intros Hk Hr Hm. apply map_eq. intros k. rewrite updated_lookup.
  destruct (decide (k = id)) as [->|Hne].
  - by rewrite lookup_insert_eq, Hr; cbn; rewrite Hm.
  - rewrite lookup_insert_ne by done.
    destruct (t !! k) as [r'|] eqn:Hk'; [|done]. cbn.
    destruct (row_matches u k r') eqn:Hm'; [|done].
    by apply (row_matches_by_id _ _ _ _ Hk) in Hm'.
Qed.

Lemma updated_by_id_miss u id t :
  where_key u = ById id →
  (∀ r, t !! id = Some r → row_matches u id r = false) →
  updated u t = t.
Proof.
  intros Hk Hmiss. apply map_eq. intros k. rewrite updated_lookup.
  destruct (t !! k) as [r'|] eqn:Hk'; [|done]. cbn.
  destruct (row_matches u k r') eqn:Hm'; [|done].
  pose proof (row_matches_by_id _ _ _ _ Hk Hm') as ->.
  rewrite (Hmiss _ Hk') in Hm'. discriminate.
Qed.

Lemma rowCount_by_id_hit u id r t :
  where_key u = ById id → t !! id = Some r → row_matches u id r = true →
  rowCount u t = 1%nat.
Proof.
  intros Hk Hr Hm. unfold rowCount.
  assert (filter (λ kr, row_matches u kr.1 kr.2 = true) t = {[id := r]}) as ->.
  { apply map_eq. intros k. apply option_eq. intros x.
    rewrite map_lookup_filter_Some, lookup_singleton_Some. cbn. split.
    - intros [Hx Hmx]. pose proof (row_matches_by_id _ _ _ _ Hk Hmx) as ->.
      split; [done|]. congruence.
    - intros [<- <-]. done. }
  apply map_size_singleton.
Qed.

Lemma rowCount_by_id_miss u id t :
  where_key u = ById id →
  (∀ r, t !! id = Some r → row_matches u id r = false) →
  rowCount u t = 0%nat.
Proof.
  intros Hk Hmiss. unfold rowCount. apply map_size_empty_iff.
  apply map_eq. intros k. rewrite lookup_empty.
  apply map_lookup_filter_None. destruct (t !! k) as [r|] eqn:Hr; [|by left].
  right. intros x [= <-]. cbn. intros Hm.
  pose proof (row_matches_by_id _ _ _ _ Hk Hm) as ->.
  rewrite (Hmiss _ Hr) in Hm. discriminate.
Qed.

(** An update by primary key writes at most one row. *)
Lemma rowCount_by_id_le_1 u id t :
  where_key u = ById id → (rowCount u t ≤ 1)%nat.
Proof.
  intros Hk. destruct (t !! id) as [r|] eqn:Hr.
  - destruct (row_matches u id r) eqn:Hm.
    + by rewrite (rowCount_by_id_hit u id r t).
    + rewrite (rowCount_by_id_miss u id t); [lia|done|]. congruence.
  - rewrite (rowCount_by_id_miss u id t); [lia|done|]. congruence.
Qed.

Lemma no_violation_without_match u t :
  (∀ id r, t !! id = Some r → row_matches u id r = false) →
  ¬ violates_unique u t.
Proof.
  intros Hmiss (n & _ & (id & r & Hr & Hm & _)).
  rewrite (Hmiss _ _ Hr) in Hm. discriminate.
Qed.

Lemma no_violation_without_nullifier u t :
  set_nullifier_hash u = None → ¬ violates_unique u t.
Proof. intros Hn (n & Hs & _). congruence. Qed.

(** [UPDATE ... SET status = 'verified', nullifier_hash = n
    WHERE id = ... AND status = 'paid'] *)
Lemma row_matches_verified n id k r :
  row_matches (update_verified n id) k r
  = bool_decide (k = id) && bool_decide (status r = paid).
Proof. done. Qed.

Lemma exec_update_verified_miss n id t :
  (∀ r, t !! id = Some r → status r ≠ paid) →
  exec_update (update_verified n id) t = Ok (t, 0%nat).
Proof.
  intros Hmiss.
  assert (∀ r, t !! id = Some r
               → row_matches (update_verified n id) id r = false) as Hm.
  { intros r Hr. rewrite row_matches_verified.
    rewrite (bool_decide_false (status r = paid)) by eauto.
    by rewrite andb_false_r. }
  unfold exec_update. rewrite decide_False.
  - by rewrite (updated_by_id_miss _ id), (rowCount_by_id_miss _ id).
  - apply no_violation_without_match. intros k r Hr.
    destruct (row_matches _ k r) eqn:Hk; [|done].
    pose proof (row_matches_by_id (update_verified n id) id _ _ eq_refl Hk)
      as ->.
    by rewrite (Hm _ Hr) in Hk.
Qed.



(** [UPDATE ... SET status = 'completed' WHERE id = ...] writes the row
    whatever its status. *)
Lemma exec_update_completed id r t :
  t !! id = Some r →
  exec_update (update_completed id) t
  = Ok (<[id := MkPurchase (user_id r) (stripe_payment_intent_id r)
                   (commitment r) completed (nullifier_hash r)]> t, 1%nat).
Proof.
  intros Hr.
  assert (row_matches (update_completed id) id r = true) as Hm.
  { unfold row_matches. cbn. by rewrite bool_decide_true. }
  unfold exec_update.
  rewrite decide_False by (by apply no_violation_without_nullifier).
  by rewrite (updated_by_id_hit _ id r), (rowCount_by_id_hit _ id r).
Qed.

(** ** The session controller *)

Section controller.
Context `{Crypto} `{Collab}.
Variable purchaseId : string.

(** C8.  A proof whose embedded commitment ([publicSignals[2]]) differs
    from the commitment of the session's purchase is refused with the
    commitment-mismatch close and nothing else happens: the verifier is
    not called.  A call of [groth16.verify] is recorded only when the
    embedded commitment equals the stored one. *)
Theorem commitment_mismatch_skips_verifier s w proof publicSignals p :
  purchase s = Some p →
  (publicSignals !! 2%nat ≠ Some (view_commitment p) →
   handle_ZKP_PROVE purchaseId s w proof publicSignals
   = (s, w, [WsClose 1011 "commitment mismatch."]))
  ∧ ((∃ ev, ev ∈ (handle_ZKP_PROVE purchaseId s w proof publicSignals).2
            ∧ is_verify ev = true) →
     publicSignals !! 2%nat = Some (view_commitment p)).
Proof.
  intros Hp. unfold handle_ZKP_PROVE. rewrite Hp. split.
  - intros Hne. by rewrite bool_decide_true.
  - case_bool_decide as Hc.
    + intros (ev & Hin & Hv). cbn in Hin.
      apply list_elem_of_singleton in Hin as ->. discriminate.
    + done.
Qed.

(** C2, as the code has it.  A request for a download reference whose
    index is outside [0, N) is refused by closing the connection, with
    code 1011 and reason "invalid book index."; no reference is sent and
    the session state is unchanged. *)
Theorem invalid_index_closes s w bookIndex :
  ¬ (0 ≤ bookIndex < Z.of_nat (length (session_books s))) →
  handle_REQUEST_SIGNED_URL s w bookIndex
  = (s, w, [WsClose 1011 "invalid book index."]).
Proof.
  intros Hout. unfold handle_REQUEST_SIGNED_URL, js_index.
  case_bool_decide as Hnn; [|done].
  rewrite lookup_ge_None_2; [done|]. lia.
Qed.

(** An index inside the range selects the book at that position. *)
Lemma valid_index_selects s bookIndex :
  0 ≤ bookIndex < Z.of_nat (length (session_books s)) →
  ∃ book, js_index (session_books s) bookIndex = Some book.
Proof.
  intros Hin. unfold js_index. rewrite bool_decide_true by lia.
  apply lookup_lt_is_Some_2. lia.
Qed.

End controller.

(** ** Reachable sessions and the delivery *)

Section reachability.
Context `{Crypto} `{Collab}.
Variable purchaseId : string.

Lemma handleInitLogic_effect s w :
  let '(_, s', evs) := handleInitLogic purchaseId s w in
  otSender s' = otSender s
  ∧ Forall (λ ev, is_deliver ev = false) evs.
Proof.
  unfold handleInitLogic.
  repeat case_match; simplify_eq; cbn; split; try done;
    repeat constructor.
Qed.

(** Where the sender of a session comes from: it is the sender of the
    session before, or a new one, or the one before after a round
    response. *)
Lemma step_sender s w i o' :
  otSender (step purchaseId s w i).1.1 = Some o' →
  otSender s = Some o'
  ∨ (∃ books e, o' = (new_SemiHonestOtSender books e).1)
  ∨ (∃ o round key e,
       otSender s = Some o ∧ o' = (processRoundResponse o round key e).1.1).
Proof.
  destruct i as [m|k]; cbn [step].
  - destruct m; cbn [handle_message].
    + unfold handle_INIT.
      destruct (verifyJwt token) as [[sub|]|];
        try (cbn; intros; left; congruence).
      pose proof (handleInitLogic_effect
                    (MkSession sub (purchase s) (otSender s)
                       (session_books s) (intervals s)) w) as Hi.
      destruct (handleInitLogic _ _ _) as [[success s2] evs].
      destruct Hi as [Hi _].
      destruct success; cbn; rewrite Hi; cbn; intros; left; congruence.
    + unfold handle_ZKP_PROVE.
      repeat case_match; cbn; try (cbn; intros; left; congruence).
      intros [= <-]. right. left.
      match goal with
      | Hn : new_SemiHonestOtSender ?b ?e = _ |- _ =>
          exists b, e; by rewrite Hn
      end.
    + unfold handle_OT_ACK_START, uncaught_or.
      repeat case_match; cbn;
        cbn; intros; left; congruence.
    + unfold handle_OT_ROUND_RESPONSE.
      destruct (otSender s) as [o|] eqn:Ho; [|cbn; intros; left; congruence].
      destruct (processRoundResponse o round clientPublicKey (entropy w))
        as [[o2 evs] e2] eqn:Hp. cbn. intros [= <-].
      right. right. exists o, round, clientPublicKey, (entropy w).
      by rewrite Hp.
    + unfold handle_OT_ROUNDS_COMPLETE, uncaught_or.
      repeat case_match; cbn;
        cbn; intros; left; congruence.
    + unfold handle_REQUEST_SIGNED_URL.
      repeat case_match; cbn;
        cbn; intros; left; congruence.
    + unfold handle_DOWNLOAD_READY.
      repeat case_match; cbn;
        cbn; intros; left; congruence.
    + cbn; intros; left; congruence.
  - unfold handle_Tick.
    destruct (intervals s !! k) as [[attempts|]|]; try (cbn; intros; left; congruence).
    pose proof (handleInitLogic_effect s w) as Hi.
    destruct (handleInitLogic _ _ _) as [[success s2] evs].
    destruct Hi as [Hi _].
    destruct (success || _); cbn; rewrite Hi;
        cbn; intros; left; congruence.
Qed.

(** In every reachable session the round counter of the sender is at
    most the number of rounds. *)
Lemma reachable_sender_inv s :
  reachable purchaseId s → ∀ o, otSender s = Some o → sender_inv o.
Proof.
  induction 1 as [|s w i Hs IH]; intros o' Ho'; [done|].
  apply step_sender in Ho' as [Ho|[(books & e & ->)|(o & r & k & e & Ho & ->)]].
  - by apply IH.
  - apply new_sender_inv.
  - specialize (IH o Ho). destruct IH as [IH1 IH2].
    pose proof (processRoundResponse_cases o r k e) as Hc.
    destruct (processRoundResponse o r k e) as [[o2 evs] e2]. cbn.
    destruct Hc as [(_ & Hlt & Hcur & Hb & Hseeds & _)|[-> _]].
    + unfold sender_inv. rewrite Hcur, Hb, Hseeds. lia.
    + done.
Qed.

Lemma run_reachable inputs : ∀ s w,
  reachable purchaseId s → reachable purchaseId (run purchaseId s w inputs).1.1.
Proof.
  induction inputs as [|i rest IH]; intros s w Hs; [done|].
  cbn [run].
  pose proof (reachable_step purchaseId s w i Hs) as H1.
  destruct (step purchaseId s w i) as [[s1 w1] evs].
  specialize (IH s1 w1 H1).
  destruct (run purchaseId s1 w1 rest) as [[s2 w2] evs']. done.
Qed.

(** Only two inputs make the session send [OT_DELIVER]: the client's
    [OT_ACK_START], through [start], when the sender has no round, and
    the client's [OT_ROUNDS_COMPLETE]. *)
Lemma deliver_sources s w i ev :
  ev ∈ (step purchaseId s w i).2 → is_deliver ev = true →
  ∃ o, otSender s = Some o
       ∧ (i = Message OT_ACK_START ∧ choiceBitCount o = 0%nat
          ∨ i = Message OT_ROUNDS_COMPLETE).
Proof.
  destruct i as [m|k]; cbn [step].
  - destruct m; cbn [handle_message].
    + unfold handle_INIT.
      destruct (verifyJwt token) as [[sub|]|];
        try (cbn; intros ->%list_elem_of_singleton; discriminate).
      pose proof (handleInitLogic_effect
                    (MkSession sub (purchase s) (otSender s)
                       (session_books s) (intervals s)) w) as Hi.
      destruct (handleInitLogic _ _ _) as [[success s2] evs].
      destruct Hi as [_ Hi]. rewrite Forall_forall in Hi.
      destruct success; cbn; intros Hin Hd; rewrite (Hi _ Hin) in Hd;
        discriminate.
    + unfold handle_ZKP_PROVE.
      repeat case_match; cbn; intros Hin Hd;
        repeat (apply elem_of_cons in Hin as [->|Hin]; [discriminate|]);
        by apply elem_of_nil in Hin.
    + unfold handle_OT_ACK_START.
      destruct (otSender s) as [o|]; [|by intros ?%elem_of_nil].
      intros Hin Hd. exists o. split; [done|]. left. split; [done|].
      unfold start in Hin. case_bool_decide; [done|].
      cbn in Hin. apply list_elem_of_singleton in Hin as ->. discriminate.
    + unfold handle_OT_ROUND_RESPONSE.
      destruct (otSender s) as [o|]; [|by intros ?%elem_of_nil].
      pose proof (processRoundResponse_cases o round clientPublicKey
                    (entropy w)) as Hc.
      destruct (processRoundResponse _ _ _ _) as [[o2 evs] e2]. cbn.
      intros Hin Hd.
      destruct Hc as [(_ & _ & _ & _ & _ & _ & (g0 & g1 & e0 & e1 & rest
                        & -> & Hrest))|[_ [reason ->]]].
      * apply elem_of_cons in Hin as [->|Hin]; [discriminate|].
        rewrite Forall_forall in Hrest. destruct (Hrest _ Hin) as [Hnd _].
        rewrite Hnd in Hd. discriminate.
      * apply list_elem_of_singleton in Hin as ->. discriminate.
    + unfold handle_OT_ROUNDS_COMPLETE.
      destruct (otSender s) as [o|]; [|by intros ?%elem_of_nil].
      intros _ _. exists o. split; [done|]. by right.
    + unfold handle_REQUEST_SIGNED_URL.
      repeat case_match; cbn; intros ->%list_elem_of_singleton; discriminate.
    + unfold handle_DOWNLOAD_READY.
      repeat case_match; cbn; intros ->%list_elem_of_singleton; discriminate.
    + by intros ?%elem_of_nil.
  - unfold handle_Tick.
    destruct (intervals s !! k) as [[attempts|]|];
      try by intros ?%elem_of_nil.
    pose proof (handleInitLogic_effect s w) as Hi.
    destruct (handleInitLogic _ _ _) as [[success s2] evs].
    destruct Hi as [_ Hi]. rewrite Forall_forall in Hi.
    destruct success; cbn.
    + rewrite app_nil_r. intros Hin Hd. rewrite (Hi _ Hin) in Hd. discriminate.
    + case_bool_decide; cbn.
      * intros [Hin| ->%list_elem_of_singleton]%elem_of_app Hd;
          [rewrite (Hi _ Hin) in Hd|]; discriminate.
      * intros Hin Hd. rewrite (Hi _ Hin) in Hd. discriminate.
Qed.
End reachability.

Section delivery.
Context `{Crypto} `{!CryptoLaws} `{Collab}.
Variable purchaseId : string.

(** C1, as the code has it.  In a reachable session [OT_DELIVER] is sent
    only by [start] when the sender has no round, or in reply to the
    client's [OT_ROUNDS_COMPLETE]; the number of accepted round responses
    is then at most [b], and equal to [b] in the first case.  The reply to
    [OT_ROUNDS_COMPLETE] does not look at the round counter: whenever a
    sender exists it is one [OT_DELIVER] with all ciphertexts. *)
Theorem deliver_on_start_or_signal s :
  reachable purchaseId s →
  (∀ w i ev,
     ev ∈ (step purchaseId s w i).2 → is_deliver ev = true →
     ∃ o, otSender s = Some o
          ∧ (currentRound o ≤ choiceBitCount o)%nat
          ∧ (i = Message OT_ACK_START
             ∧ choiceBitCount o = 0%nat
             ∧ currentRound o = choiceBitCount o
             ∨ i = Message OT_ROUNDS_COMPLETE))
  ∧ (∀ w o,
       otSender s = Some o →
       ∃ l, (step purchaseId s w (Message OT_ROUNDS_COMPLETE)).2
            = [WsSend (OT_DELIVER l)]
            ∧ length l = length (bookSecrets o)).
Proof.
  intros Hs. split.
  - intros w i ev Hin Hd.
    destruct (deliver_sources purchaseId s w i ev Hin Hd) as (o & Ho & Hi).
    destruct (reachable_sender_inv purchaseId s Hs o Ho) as [Hle _].
    exists o. split_and!; [done..|].
    destruct Hi as [[Hi Hb]|Hi]; subst i; [left|by right].
    split_and!; [done..|]. lia.
  - intros w o Ho. cbn [step handle_message].
    unfold handle_OT_ROUNDS_COMPLETE. rewrite Ho.
    destruct (sendFinalSecrets_spec o (entropy w)) as (l & Hl & Hlen & _).
    exists l. by rewrite Hl.
Qed.
End delivery.

(** ** The status updates *)

(** An update with a status conjunct leaves a row in another status
    alone. *)
Lemma conditional_update_skips u st t id r :
  where_status u = Some st → t !! id = Some r → status r ≠ st →
  updated u t !! id = Some r.
Proof.
  intros Hw Hr Hne. rewrite updated_lookup, Hr. cbn.
  unfold row_matches. rewrite Hw, (bool_decide_false (status r = st)) by done.
  by rewrite andb_false_r.
Qed.

(** The webhook moves a purchase to [paid] only from [pending]: a row in
    another status is left as it is. *)
Lemma post_stripe_only_from_pending `{Collab} sig rawBody intent t id r :
  sig ≠ "" →
  constructEvent rawBody sig = Ok (payment_intent_succeeded intent) →
  t !! id = Some r → status r ≠ pending →
  (post_stripe (Some sig) rawBody t).2 !! id = Some r.
Proof.
  intros Hsig Hev Hr Hst. unfold post_stripe.
  rewrite bool_decide_false by done. rewrite Hev.
  unfold exec_update.
  rewrite decide_False by (by apply no_violation_without_nullifier).
  cbn [snd]. by apply (conditional_update_skips _ pending).
Qed.

(** The proof phase moves a purchase to [verified] only from [paid]. *)
Lemma verified_only_from_paid n id t r :
  t !! id = Some r → status r ≠ paid →
  exec_update (update_verified n id) t = Ok (t, 0%nat).
Proof.
  intros Hr Hst. apply exec_update_verified_miss.
  intros r' Hr'. rewrite Hr in Hr'. by injection Hr' as <-.
Qed.

(** C3.  The updates to [paid] and to [verified] carry the conjunct on the
    predecessor status; the update to [completed] carries none.  On a
    purchase that is still [pending], [DOWNLOAD_READY], sent on a fresh
    connection, writes [completed]. *)
Theorem completed_update_is_unconditional :
  (∀ intent, where_status (update_paid intent) = Some pending)
  ∧ (∀ n id, where_status (update_verified n id) = Some paid)
  ∧ (∀ id, where_status (update_completed id) = None)
  ∧ purchases (db Sample.pending_world) !! "p1" = Some Sample.pending_row
  ∧ status Sample.pending_row = pending
  ∧ let '(_, w, evs) :=
      handle_DOWNLOAD_READY "p1" initial_session Sample.pending_world in
    purchases (db w) !! "p1"
    = Some (MkPurchase "alice" "pi_1" "C" completed None)
    ∧ evs = [WsClose 1000 "purchase process completed."].
Proof.
  split_and!; done.
Qed.

(** ** The properties on the sample instance *)

Lemma sample_laws : @CryptoLaws Sample.crypto.
Proof.
  constructor. intros key iv pt Hk Hiv. cbn. unfold Sample.toy_gcm.
  rewrite bool_decide_true by done. eexists _, _. split_and!; [done| |].
  - by rewrite length_imap.
  - by rewrite length_replicate.
Qed.

Section samples.
#[local] Existing Instance Sample.crypto.
#[local] Existing Instance Sample.collab.
#[local] Existing Instance sample_laws.

Lemma aesGcmEncrypt_layout_sample :
  length Sample.key32 = 32%nat
  ∧ ∃ nonce ct tag e',
      aesGcmEncrypt Sample.key32 [1; 2; 3] Sample.entropy0
      = (Ok (nonce ++ ct ++ tag), e')
      ∧ (nonce, e') = randomBytes 12 Sample.entropy0
      ∧ length nonce = 12%nat
      ∧ cursor e' = (cursor Sample.entropy0 + 12)%nat
      ∧ aes_256_gcm Sample.key32 nonce [1; 2; 3] = Ok (ct, tag)
      ∧ length tag = 16%nat
      ∧ length (nonce ++ ct ++ tag) = (12 + length [1; 2; 3] + 16)%nat
      ∧ take 12 (nonce ++ ct ++ tag) = nonce.
Proof.
  split; [reflexivity|].
  apply (aesGcmEncrypt_layout Sample.key32 [1; 2; 3] Sample.entropy0).
  reflexivity.
Defined.

Lemma round_mismatch_sample :
  1 ≠ Z.of_nat (currentRound Sample.sender4)
  ∧ processRoundResponse Sample.sender4 1 "02ab" Sample.entropy0
    = (Sample.sender4, [WsClose 1011 "[OT] round mismatch."],
       Sample.entropy0).
Proof.
  assert (1 ≠ Z.of_nat (currentRound Sample.sender4)) as Hne
    by (vm_compute; discriminate).
  split; [exact Hne|].
  exact (proj1 (processRoundResponse_round_mismatch Sample.sender4 1 "02ab"
                  Sample.entropy0 Hne)).
Defined.

Lemma item_keys_sample :
  Z.of_nat (length Sample.four_books) < 2 ^ 32
  ∧ let o := Sample.sender4 in
    ∃ l,
      (sendFinalSecrets o Sample.entropy0).1 = Ok [WsSend (OT_DELIVER l)]
      ∧ length l = length Sample.four_books
      ∧ ∀ i book, Sample.four_books !! i = Some book →
          masterKey_of o i = item_key (roundSeeds o) i
          ∧ (∀ j, (j < choiceBitCount o)%nat →
               choiceBit i j = Z.b2z (Z.testbit (Z.of_nat i) (Z.of_nat j)))
          ∧ ∃ ct tag,
              aes_256_gcm (item_key (roundSeeds o) i)
                (nonce_at Sample.entropy0 i)
                (hex_decode (secret_key book)) = Ok (ct, tag)
              ∧ l !! i
                = Some (hex_encode (nonce_at Sample.entropy0 i ++ ct ++ tag)).
Proof.
  assert (Z.of_nat (length Sample.four_books) < 2 ^ 32) as Hlt
    by reflexivity.
  split; [exact Hlt|].
  exact (sendFinalSecrets_item_keys Sample.four_books Sample.entropy0 0
           Sample.entropy0 Hlt).
Defined.

Lemma zero_key_sample :
  (length [Sample.book "00"] ≤ 1)%nat
  ∧ let o := (new_SemiHonestOtSender [Sample.book "00"] Sample.entropy0).1 in
    choiceBitCount o = 0%nat
    ∧ (∀ i, masterKey_of o i = replicate 32 0)
    ∧ ∃ l,
        (sendFinalSecrets o Sample.entropy0).1 = Ok [WsSend (OT_DELIVER l)]
        ∧ length l = length [Sample.book "00"]
        ∧ ∀ i book, [Sample.book "00"] !! i = Some book →
            ∃ ct tag,
              aes_256_gcm (replicate 32 0) (nonce_at Sample.entropy0 i)
                (hex_decode (secret_key book)) = Ok (ct, tag)
              ∧ l !! i
                = Some (hex_encode (nonce_at Sample.entropy0 i ++ ct ++ tag)).
Proof.
  assert (length [Sample.book "00"] ≤ 1)%nat as Hle by (cbn; lia).
  split; [exact Hle|].
  exact (sendFinalSecrets_zero_key [Sample.book "00"] Sample.entropy0
           Sample.entropy0 Hle).
Defined.

Lemma single_item_sample :
  let o := (new_SemiHonestOtSender [Sample.book "00"] Sample.entropy0).1 in
  length [Sample.book "00"] = 1%nat
  ∧ choiceBitCount o = 0%nat
  ∧ roundSeeds o = []
  ∧ (∀ e', start o e' = sendFinalSecrets o e'
           ∧ ∃ c, (start o e').1 = Ok [WsSend (OT_DELIVER [c])])
  ∧ (∀ round key e',
       ∃ reason,
         processRoundResponse o round key e' = (o, [WsClose 1011 reason], e'))
  ∧ ∀ e', ∃ ct tag,
      aes_256_gcm (replicate 32 0) (nonce_at e' 0)
        (hex_decode (secret_key (Sample.book "00"))) = Ok (ct, tag)
      ∧ start o e'
        = (Ok [WsSend (OT_DELIVER [hex_encode (nonce_at e' 0 ++ ct ++ tag)])],
           MkEntropy (stream e') (cursor e' + 12)).
Proof.
  intros o.
  destruct (choiceBitCount_and_single_item [Sample.book "00"] Sample.entropy0)
    as [_ Hone].
  destruct (Hone eq_refl)
    as (Hseeds & Hstart & Hrounds & book & Hbook & Hzero & Hdeliver).
  injection Hbook as <-.
  split_and!; [reflexivity | reflexivity | exact Hseeds | exact Hstart
              | exact Hrounds |].
  intros e'. destruct (Hdeliver e') as (ct & tag & Hc & Hs).
  rewrite Hzero in Hc. exists ct, tag. split; [exact Hc | exact Hs].
Defined.

Lemma commitment_mismatch_sample :
  let s := Sample.paid_state.1.1 in
  let w := Sample.paid_state.1.2 in
  purchase s = Some Sample.paid_view
  ∧ ["42"; "R"; "X"] !! 2%nat ≠ Some (view_commitment Sample.paid_view)
  ∧ handle_ZKP_PROVE "p1" s w "valid" ["42"; "R"; "X"]
    = (s, w, [WsClose 1011 "commitment mismatch."]).
Proof.
  intros s w.
  assert (purchase s = Some Sample.paid_view) as Hp by reflexivity.
  assert (["42"; "R"; "X"] !! 2%nat
          ≠ Some (view_commitment Sample.paid_view)) as Hne
    by (vm_compute; discriminate).
  split_and!; [exact Hp | exact Hne |].
  exact (proj1 (commitment_mismatch_skips_verifier "p1" s w "valid"
                  ["42"; "R"; "X"] Sample.paid_view Hp) Hne).
Defined.

Lemma invalid_index_sample :
  let s := Sample.ot_state.1.1 in
  let w := Sample.ot_state.1.2 in
  ¬ (0 ≤ -1 < Z.of_nat (length (session_books s)))
  ∧ handle_REQUEST_SIGNED_URL s w (-1)
    = (s, w, [WsClose 1011 "invalid book index."]).
Proof.
  intros s w.
  assert (¬ (0 ≤ -1 < Z.of_nat (length (session_books s)))) as Hout by lia.
  split; [exact Hout|].
  exact (invalid_index_closes s w (-1) Hout).
Defined.

(** C2: the request for index 4 of a catalog of four books closes the
    connection. *)
Lemma invalid_index_not_kept_open :
  let s := Sample.ot_state.1.1 in
  let w := Sample.ot_state.1.2 in
  length (session_books s) = 4%nat
  ∧ (handle_REQUEST_SIGNED_URL s w 4).2
    = [WsClose 1011 "invalid book index."]
  ∧ ¬ Forall (λ ev, is_close ev = false) (handle_REQUEST_SIGNED_URL s w 4).2.
Proof.
  intros s w. split_and!; [reflexivity | reflexivity |].
  intros Hall. apply Forall_cons in Hall as [Hc _]. discriminate Hc.
Qed.


Lemma deliver_on_start_or_signal_sample :
  let s := Sample.ot_state.1.1 in
  reachable "p1" s
  ∧ (∀ w i ev,
       ev ∈ (step "p1" s w i).2 → is_deliver ev = true →
       ∃ o, otSender s = Some o
            ∧ (currentRound o ≤ choiceBitCount o)%nat
            ∧ (i = Message OT_ACK_START
               ∧ choiceBitCount o = 0%nat
               ∧ currentRound o = choiceBitCount o
               ∨ i = Message OT_ROUNDS_COMPLETE))
  ∧ (∀ w o,
       otSender s = Some o →
       ∃ l, (step "p1" s w (Message OT_ROUNDS_COMPLETE)).2
            = [WsSend (OT_DELIVER l)]
            ∧ length l = length (bookSecrets o)).
Proof.
  intros s.
  assert (reachable "p1" s) as Hs.
  { apply (run_reachable "p1"). apply reachable_initial. }
  split; [exact Hs|].
  exact (deliver_on_start_or_signal "p1" s Hs).
Defined.

(** C1: after the proof is accepted for a catalog of four books, which
    needs two rounds, the client's [OT_ROUNDS_COMPLETE] makes the server
    send [OT_DELIVER] although no round response was accepted. *)
Lemma rounds_complete_delivers_early :
  let s := Sample.ot_state.1.1 in
  let w := Sample.ot_state.1.2 in
  reachable "p1" s
  ∧ ∃ o l,
      otSender s = Some o
      ∧ choiceBitCount o = 2%nat
      ∧ currentRound o = 0%nat
      ∧ (step "p1" s w (Message OT_ROUNDS_COMPLETE)).2
        = [WsSend (OT_DELIVER l)]
      ∧ length l = 4%nat.
Proof.
  intros s w. split.
  { apply (run_reachable "p1"). apply reachable_initial. }
  eexists _, _. split_and!; [reflexivity | reflexivity | reflexivity | |].
  - vm_compute. reflexivity.
  - reflexivity.
Qed.


(** The end-to-end scenario runs through: the calls on the socket and on
    the verifier in order, three accepted rounds, and the purchase
    [completed]. *)
Example scenario_run :
  let '(s, w, evs) := run "p1" initial_session
                        (with_purchases Sample.world8
                           (post_stripe (Some "good") "pi_1"
                              (purchases (db Sample.world8))).2)
                        Sample.scenario in
  map Sample.kind evs
  = ["ZKP_READY"; "groth16.verify"; "OT_START";
     "OT_ROUND_START"; "OT_ROUND_CHALLENGE";
     "OT_ROUND_START"; "OT_ROUND_CHALLENGE";
     "OT_ROUND_START"; "OT_ROUND_CHALLENGE";
     "OT_DELIVER"; "SIGNED_URL"; "close"]
  ∧ (currentRound <$> otSender s) = Some 3%nat
  ∧ (status <$> purchases (db w) !! "p1") = Some completed
  ∧ (nullifier_hash <$> purchases (db w) !! "p1") = Some (Some "42").
Proof. vm_compute. done. Qed.
End samples.

(** * Further properties *)

(** ** Round responses *)

Section rounds.
Context `{Crypto} `{!CryptoLaws}.

(** The body of the [try] for a client key that P-256 accepts: two key
    pairs, two shared secrets, two encryptions, each with its own nonce. *)
Lemma round_challenge_accepts round key e seeds priv0 e1 priv1 e2 ss0 ss1 :
  p256_randomSecretKey e = (priv0, e1) →
  p256_randomSecretKey e1 = (priv1, e2) →
  p256_getSharedSecret priv0 (hex_decode key) = Ok ss0 →
  p256_getSharedSecret priv1 (hex_decode key) = Ok ss1 →
  length (sha256 ss0) = 32%nat → length (sha256 ss1) = 32%nat →
  ∃ c0 t0 c1 t1,
    aes_256_gcm (sha256 ss0) (nonce_at e2 0) (seed0 seeds) = Ok (c0, t0)
    ∧ aes_256_gcm (sha256 ss1) (nonce_at e2 1) (seed1 seeds) = Ok (c1, t1)
    ∧ round_challenge round seeds key e
      = (Ok (OT_ROUND_CHALLENGE round
               (hex_encode (p256_getPublicKey priv0))
               (hex_encode (p256_getPublicKey priv1))
               (hex_encode (nonce_at e2 0 ++ c0 ++ t0))
               (hex_encode (nonce_at e2 1 ++ c1 ++ t1))),
         MkEntropy (stream e2) (cursor e2 + 24)).
Proof.
  intros Hk0 Hk1 Hss0 Hss1 L0 L1.
  destruct (aesGcmEncrypt_Ok (sha256 ss0) (seed0 seeds) e2 L0)
    as (c0 & t0 & Hc0 & _ & _ & Hr0).
  destruct (aesGcmEncrypt_Ok (sha256 ss1) (seed1 seeds) (randomBytes 12 e2).2 L1)
    as (c1 & t1 & Hc1 & _ & _ & Hr1).
  assert ((randomBytes 12 (randomBytes 12 e2).2).1 = nonce_at e2 1) as Hn1.
  { unfold nonce_at. cbn [randomBytes fst snd stream cursor].
    by rewrite Nat.mul_1_r. }
  rewrite <- nonce_at_0 in Hc0, Hr0. rewrite Hn1 in Hc1, Hr1.
  exists c0, t0, c1, t1. split_and!; [done..|].
  unfold round_challenge.
  unfold mbind at 1. unfold Rand_bind, generateServerOtKeyPair. rewrite Hk0.
  unfold mbind at 1. unfold Rand_bind. rewrite Hk1.
  unfold mbind at 1. unfold Rand_bind, lift, deriveServerSharedSecret.
  cbn [privateKey publicKey]. rewrite Hss0.
  unfold mbind at 1. unfold Rand_bind. rewrite Hss1.
  rewrite (bind_Ok _ _ _ _ _ Hr0), (bind_Ok _ _ _ _ _ Hr1).
  cbn [mret Rand_ret randomBytes snd stream cursor].
  by replace (cursor e2 + 12 + 12)%nat with (cursor e2 + 24)%nat by lia.
Qed.

(** X1.  A response for the expected round with a client key that P-256
    accepts: the sender draws two key pairs, encrypts [seed0] under the
    hashed secret shared with the first and [seed1] under the one shared
    with the second, sends both public keys and both ciphertexts, and
    advances the counter by one; the next round is offered only if one is
    left. *)
Theorem round_response_accepted o key e seeds priv0 e1 priv1 e2 ss0 ss1 :
  roundSeeds o !! currentRound o = Some seeds →
  p256_randomSecretKey e = (priv0, e1) →
  p256_randomSecretKey e1 = (priv1, e2) →
  p256_getSharedSecret priv0 (hex_decode key) = Ok ss0 →
  p256_getSharedSecret priv1 (hex_decode key) = Ok ss1 →
  length (sha256 ss0) = 32%nat → length (sha256 ss1) = 32%nat →
  ∃ c0 t0 c1 t1,
    aes_256_gcm (sha256 ss0) (nonce_at e2 0) (seed0 seeds) = Ok (c0, t0)
    ∧ aes_256_gcm (sha256 ss1) (nonce_at e2 1) (seed1 seeds) = Ok (c1, t1)
    ∧ processRoundResponse o (Z.of_nat (currentRound o)) key e
      = (MkSender (bookSecrets o) (choiceBitCount o) (S (currentRound o))
           (roundSeeds o),
         WsSend (OT_ROUND_CHALLENGE (currentRound o)
                   (hex_encode (p256_getPublicKey priv0))
                   (hex_encode (p256_getPublicKey priv1))
                   (hex_encode (nonce_at e2 0 ++ c0 ++ t0))
                   (hex_encode (nonce_at e2 1 ++ c1 ++ t1)))
         :: (if bool_decide (S (currentRound o) < choiceBitCount o)%nat
             then [WsSend (OT_ROUND_START (S (currentRound o)))] else []),
         MkEntropy (stream e2) (cursor e2 + 24)).
Proof.
  intros Hs Hk0 Hk1 Hss0 Hss1 L0 L1.
  destruct (round_challenge_accepts (currentRound o) key e seeds
              priv0 e1 priv1 e2 ss0 ss1 Hk0 Hk1 Hss0 Hss1 L0 L1)
    as (c0 & t0 & c1 & t1 & Hc0 & Hc1 & Hrc).
  exists c0, t0, c1, t1. split_and!; [done..|].
  unfold processRoundResponse.
  rewrite bool_decide_false by (intros Hne; by apply Hne).
  by rewrite Hs, Hrc.
Qed.

(** X2.  A client key that is no curve point: the derivation of the first
    shared secret throws after both key pairs are drawn; the socket is
    closed and the sender is as before, its round counter included. *)
Theorem round_response_invalid_key o key e seeds priv0 e1 priv1 e2 c :
  roundSeeds o !! currentRound o = Some seeds →
  p256_randomSecretKey e = (priv0, e1) →
  p256_randomSecretKey e1 = (priv1, e2) →
  p256_getSharedSecret priv0 (hex_decode key) = Throws c →
  processRoundResponse o (Z.of_nat (currentRound o)) key e
  = (o, [WsClose 1011 "OT protocol processing failed."], e2).
Proof.
  intros Hs Hk0 Hk1 Hss0.
  unfold processRoundResponse. rewrite bool_decide_false by (intros Hne; by apply Hne).
  rewrite Hs. unfold round_challenge.
  unfold mbind at 1. unfold Rand_bind, generateServerOtKeyPair. rewrite Hk0.
  unfold mbind at 1. unfold Rand_bind. rewrite Hk1.
  unfold mbind at 1. unfold Rand_bind, lift, deriveServerSharedSecret.
  cbn [privateKey publicKey]. by rewrite Hss0.
Qed.
End rounds.

Section rounds_in_order.
Context `{Crypto} `{!CryptoLaws}.

(** X3.  The client answers every round that is left, with keys that P-256
    accepts.  Then every answer is accepted: the challenges of the rounds
    come in order, each further round is offered once, the socket is never
    closed, and the counter ends at the number of rounds. *)
Theorem answer_rounds_completes keys : ∀ o e,
  length (roundSeeds o) = choiceBitCount o →
  (currentRound o + length keys)%nat = choiceBitCount o →
  Forall (λ key, ∀ priv, ∃ ss, p256_getSharedSecret priv (hex_decode key) = Ok ss)
    keys →
  (∀ m, length (sha256 m) = 32%nat) →
  let '(o', evs, _) := answer_rounds o keys e in
  currentRound o' = choiceBitCount o
  ∧ roundSeeds o' = roundSeeds o
  ∧ bookSecrets o' = bookSecrets o
  ∧ omap challenge_round evs = seq (currentRound o) (length keys)
  ∧ omap offered_round evs = seq (S (currentRound o)) (length keys - 1)
  ∧ Forall (λ ev, is_close ev = false) evs.
Proof.
  induction keys as [|key rest IH]; intros o e Hlen Hleft Hkeys Hsha.
  - cbn. split_and!; try done. cbn in Hleft. lia.
  - cbn [answer_rounds]. cbn [length] in Hleft.
    apply Forall_cons in Hkeys as [Hkey Hrest].
    destruct (lookup_lt_is_Some_2 (roundSeeds o) (currentRound o) ltac:(lia))
      as [seeds Hs].
    destruct (p256_randomSecretKey e) as [priv0 e1] eqn:Hk0.
    destruct (p256_randomSecretKey e1) as [priv1 e2] eqn:Hk1.
    destruct (Hkey priv0) as [ss0 Hss0]. destruct (Hkey priv1) as [ss1 Hss1].
    destruct (round_challenge_accepts (currentRound o) key e seeds
                priv0 e1 priv1 e2 ss0 ss1 Hk0 Hk1 Hss0 Hss1 (Hsha _) (Hsha _))
      as (c0 & t0 & c1 & t1 & _ & _ & Hrc).
    unfold processRoundResponse.
    rewrite bool_decide_false by (intros Hne; by apply Hne).
    rewrite Hs, Hrc.
    set (o1 := MkSender _ _ _ _).
    specialize (IH o1 (MkEntropy (stream e2) (cursor e2 + 24))
                  Hlen ltac:(cbn; lia) Hrest Hsha).
    destruct (answer_rounds o1 rest _) as [[o2 evs'] e3].
    destruct IH as (I1 & I2 & I3 & I4 & I5 & I6). cbn in I1, I2, I3, I4, I5.
    split_and!; [done..| | |].
    + cbn [app omap list_omap challenge_round]. f_equal.
      rewrite omap_app. case_bool_decide; cbn; by rewrite I4.
    + cbn [app omap list_omap offered_round length].
      rewrite omap_app, I5.
      replace (S (length rest) - 1)%nat with (length rest) by lia.
      case_bool_decide as Hb; cbn.
      * destruct rest as [|k2 rest]; cbn in *; [lia|]. by rewrite Nat.sub_0_r.
      * destruct rest as [|k2 rest]; cbn in *; [done|lia].
    + constructor; [done|]. apply Forall_app. split; [|done].
      case_bool_decide; repeat constructor.
Qed.
End rounds_in_order.

Section sessions.
Context `{Crypto} `{Collab}.
Variable purchaseId : string.

Lemma handleInitLogic_fields s w :
  let '(_, s', _) := handleInitLogic purchaseId s w in
  otSender s' = otSender s
  ∧ session_books s' = session_books s
  ∧ userId s' = userId s
  ∧ (is_Some (purchase s) → is_Some (purchase s')).
Proof.
  unfold handleInitLogic.
  repeat case_match; simplify_eq; cbn; split_and!; try done; eauto.
Qed.

(** Four handlers leave the session state as it is. *)
Lemma session_kept s w :
  (handle_OT_ACK_START s w).1.1 = s
  ∧ (handle_OT_ROUNDS_COMPLETE s w).1.1 = s
  ∧ (∀ bookIndex, (handle_REQUEST_SIGNED_URL s w bookIndex).1.1 = s)
  ∧ (handle_DOWNLOAD_READY purchaseId s w).1.1 = s.
Proof.
  unfold handle_OT_ACK_START, handle_OT_ROUNDS_COMPLETE, uncaught_or,
    handle_REQUEST_SIGNED_URL, handle_DOWNLOAD_READY.
  split_and!; intros; repeat case_match; done.
Qed.

Lemma step_session_inv s w i :
  session_inv s → session_inv (step purchaseId s w i).1.1.
Proof.
  unfold session_inv. intros Hs.
  destruct i as [m|k]; cbn [step].
  - destruct m; cbn [handle_message].
    + unfold handle_INIT. destruct (verifyJwt token) as [[sub|]|]; try done.
      pose proof (handleInitLogic_fields
                    (MkSession sub (purchase s) (otSender s)
                       (session_books s) (intervals s)) w) as Hi.
      destruct (handleInitLogic _ _ _) as [[success s2] evs].
      destruct Hi as (H1 & H2 & _ & H4). cbn in H1, H2, H4.
      destruct success; cbn; rewrite H1, H2;
        destruct (otSender s); try done;
        (split; [tauto | apply H4; tauto]).
    + unfold handle_ZKP_PROVE.
      destruct (purchase s) as [p|] eqn:Hp;
        [|cbn [fst]; rewrite ?Hp; exact Hs].
      case_bool_decide; [cbn [fst]; rewrite ?Hp; exact Hs|].
      destruct (groth16_verify _ _) as [[|]|];
        try (cbn [fst]; rewrite ?Hp; exact Hs).
      destruct (exec_update _ _) as [[t n]|];
        [|cbn [fst]; rewrite ?Hp; exact Hs].
      case_bool_decide; [cbn [fst]; rewrite ?Hp; exact Hs|].
      destruct (new_SemiHonestOtSender _ _) as [sender e] eqn:Hn. cbn.
      pose proof (new_sender_fields (books (db (with_purchases w t)))
                    (entropy (with_purchases w t))) as (Hf & _).
      rewrite Hn in Hf. split; [exact Hf|]. eauto.
    + by rewrite (proj1 (session_kept s w)).
    + unfold handle_OT_ROUND_RESPONSE.
      destruct (otSender s) as [o|] eqn:Ho; [|cbn [fst]; by rewrite Ho].
      pose proof (processRoundResponse_cases o round clientPublicKey
                    (entropy w)) as Hc.
      destruct (processRoundResponse _ _ _ _) as [[o2 evs] e2]. cbn.
      destruct Hc as [(_ & _ & _ & _ & _ & Hb & _)|[-> _]]; [|done].
      rewrite Hb. done.
    + by rewrite (proj1 (proj2 (session_kept s w))).
    + by rewrite (proj1 (proj2 (proj2 (session_kept s w)))).
    + by rewrite (proj2 (proj2 (proj2 (session_kept s w)))).
    + done.
  - unfold handle_Tick.
    destruct (intervals s !! k) as [[attempts|]|]; try done.
    pose proof (handleInitLogic_fields s w) as Hi.
    destruct (handleInitLogic _ _ _) as [[success s2] evs].
    destruct Hi as (H1 & H2 & _ & H4).
    destruct (success || _); cbn; rewrite H1, H2;
      destruct (otSender s); try done;
      (split; [tauto | apply H4; tauto]).
Qed.

Lemma reachable_session_inv s : reachable purchaseId s → session_inv s.
Proof.
  induction 1 as [|s w i Hs IH]; [done|]. by apply step_session_inv.
Qed.

(** X4.  A response is accepted only for the expected round and only
    while a round is left: in a reachable session a response that changes
    the sender carries the number of the current round, which is below the
    number of rounds, and the sender afterwards is the sender before with
    the round counter one higher: the book secrets, the seeds and the
    number of rounds are as they were. *)
Theorem response_accepted_only_in_order s o round key e :
  reachable purchaseId s → otSender s = Some o →
  (processRoundResponse o round key e).1.1 ≠ o →
  round = Z.of_nat (currentRound o)
  ∧ (currentRound o < choiceBitCount o)%nat
  ∧ currentRound (processRoundResponse o round key e).1.1
    = S (currentRound o)
  ∧ bookSecrets (processRoundResponse o round key e).1.1 = bookSecrets o
  ∧ roundSeeds (processRoundResponse o round key e).1.1 = roundSeeds o
  ∧ choiceBitCount (processRoundResponse o round key e).1.1
    = choiceBitCount o
  ∧ (processRoundResponse o round key e).1.1
    = MkSender (bookSecrets o) (choiceBitCount o) (S (currentRound o))
        (roundSeeds o).
Proof.
  intros Hs Ho Hne.
  destruct (reachable_sender_inv purchaseId s Hs o Ho) as [_ Hlen].
  pose proof (processRoundResponse_cases o round key e) as Hc.
  destruct (processRoundResponse o round key e) as [[o2 evs] e2]. cbn in *.
  destruct Hc as [(Hr & Hlt & Hcur & Hb & Hseeds & Hsec & _)|[-> _]]; [|done].
  split_and!; [done | lia | done..|].
  destruct o2. cbn in *. by subst.
Qed.
End sessions.

(** ** Delivery and download *)

Section download.
Context `{Crypto} `{Collab}.
Variable purchaseId : string.

Ltac no_url Hno :=
  let Hin := fresh "Hin" in
  intros Hin; apply (Hno _ Hin); cbn in *; try done; repeat constructor.

Lemma handleInitLogic_no_url s w :
  Forall (λ ev, is_signed_url ev = false) (handleInitLogic purchaseId s w).2.
Proof. unfold handleInitLogic. repeat case_match; repeat constructor. Qed.

Lemma sendFinalSecrets_no_url o e :
  match (sendFinalSecrets o e).1 with
  | Ok evs => Forall (λ ev, is_signed_url ev = false) evs
  | Throws _ => True
  end.
Proof.
  unfold sendFinalSecrets, mbind, Rand_bind.
  destruct (encrypt_items _ _ _ _) as [[l|c] e']; cbn; repeat constructor.
Qed.

Lemma round_challenge_shape round seeds key e m e' :
  round_challenge round seeds key e = (Ok m, e') →
  ∃ g0 g1 e0 e1, m = OT_ROUND_CHALLENGE round g0 g1 e0 e1.
Proof.
  unfold round_challenge. intros Hc.
  unfold mbind, Rand_bind, generateServerOtKeyPair, lift, mret, Rand_ret in Hc.
  repeat match type of Hc with
  | context [let '(_, _) := ?x in _] => destruct x
  | context [match ?x with _ => _ end] => destruct x eqn:?; try discriminate
  end.
  simplify_eq. by do 4 eexists.
Qed.

Lemma processRoundResponse_no_url o round key e :
  Forall (λ ev, is_signed_url ev = false) (processRoundResponse o round key e).1.2.
Proof.
  unfold processRoundResponse.
  case_bool_decide; [repeat constructor|].
  destruct (roundSeeds o !! currentRound o) as [seeds|]; [|repeat constructor].
  destruct (round_challenge _ _ _ _) as [[m|c] e'] eqn:Hc;
    [|repeat constructor].
  apply round_challenge_shape in Hc as (g0 & g1 & e0 & e1 & ->). cbn.
  case_bool_decide; repeat constructor.
Qed.

(** Where a download reference comes from: the request for a book of the
    session, on a session with a sender and a loaded purchase. *)
Lemma signed_url_source s w i ev :
  reachable purchaseId s →
  ev ∈ (step purchaseId s w i).2 → is_signed_url ev = true →
  ∃ bookIndex book o p,
    i = Message (REQUEST_SIGNED_URL bookIndex)
    ∧ js_index (session_books s) bookIndex = Some book
    ∧ otSender s = Some o
    ∧ purchase s = Some p.
Proof.
  intros Hs Hin Hurl.
  assert (∀ evs, ev ∈ evs → Forall (λ ev, is_signed_url ev = false) evs → False)
    as Hno.
  { intros evs Hev Hall. rewrite Forall_forall in Hall.
    rewrite (Hall _ Hev) in Hurl. discriminate. }
  destruct i as [m|k]; cbn [step] in Hin.
  - destruct m; cbn [handle_message] in Hin.
    + exfalso. revert Hin. unfold handle_INIT.
      destruct (verifyJwt token) as [[sub|]|]; try by no_url Hno.
      pose proof (handleInitLogic_no_url
                    (MkSession sub (purchase s) (otSender s)
                       (session_books s) (intervals s)) w) as Hi.
      destruct (handleInitLogic _ _ _) as [[success s2] evs].
      destruct success; by no_url Hno.
    + exfalso. revert Hin. unfold handle_ZKP_PROVE.
      repeat case_match; by no_url Hno.
    + exfalso. revert Hin. unfold handle_OT_ACK_START, uncaught_or, start.
      destruct (otSender s) as [o|]; [|by no_url Hno].
      case_bool_decide; [|by no_url Hno].
      pose proof (sendFinalSecrets_no_url o (entropy w)) as Hf.
      destruct (sendFinalSecrets o (entropy w)) as [[evs|c] e'];
        by no_url Hno.
    + exfalso. revert Hin. unfold handle_OT_ROUND_RESPONSE.
      destruct (otSender s) as [o|]; [|by no_url Hno].
      pose proof (processRoundResponse_no_url o round clientPublicKey
                    (entropy w)) as Hp.
      destruct (processRoundResponse _ _ _ _) as [[o2 evs] e2].
      by no_url Hno.
    + exfalso. revert Hin. unfold handle_OT_ROUNDS_COMPLETE, uncaught_or.
      destruct (otSender s) as [o|]; [|by no_url Hno].
      pose proof (sendFinalSecrets_no_url o (entropy w)) as Hf.
      destruct (sendFinalSecrets o (entropy w)) as [[evs|c] e'];
        by no_url Hno.
    + unfold handle_REQUEST_SIGNED_URL in Hin.
      destruct (js_index (session_books s) bookIndex) as [book|] eqn:Hb.
      2:{ exfalso. revert Hin. by no_url Hno. }
      pose proof (reachable_session_inv purchaseId s Hs) as Hinv.
      unfold session_inv in Hinv.
      destruct (otSender s) as [o|].
      * destruct Hinv as [_ [p Hp]]. by exists bookIndex, book, o, p.
      * rewrite Hinv in Hb. unfold js_index in Hb.
        case_bool_decide; by rewrite ?lookup_nil in Hb.
    + exfalso. revert Hin. unfold handle_DOWNLOAD_READY.
      repeat case_match; by no_url Hno.
    + by apply elem_of_nil in Hin.
  - exfalso. revert Hin. unfold handle_Tick.
    destruct (intervals s !! k) as [[attempts|]|]; try by no_url Hno.
    pose proof (handleInitLogic_no_url s w) as Hi.
    destruct (handleInitLogic _ _ _) as [[success s2] evs]. cbn in Hi.
    destruct success; cbn -[bool_decide].
    + rewrite app_nil_r. by no_url Hno.
    + case_bool_decide; [|by no_url Hno].
      intros Hin. apply (Hno _ Hin). apply Forall_app. split; [done|].
      repeat constructor.
Qed.

Lemma history_reachable s past :
  history purchaseId s past → reachable purchaseId s.
Proof. induction 1; [apply reachable_initial | by apply reachable_step]. Qed.

Lemma run_history inputs : ∀ s w past,
  history purchaseId s past →
  history purchaseId (run purchaseId s w inputs).1.1
    (past ++ (run purchaseId s w inputs).2).
Proof.
  induction inputs as [|i rest IH]; intros s w past Hs; cbn [run].
  - cbn. by rewrite app_nil_r.
  - pose proof (history_step purchaseId s past w i Hs) as H1.
    destruct (step purchaseId s w i) as [[s1 w1] evs].
    specialize (IH s1 w1 _ H1).
    destruct (run purchaseId s1 w1 rest) as [[s2 w2] evs']. cbn in *.
    by rewrite (assoc_L (++)).
Qed.

(** One input leaves the session without a sender if it had none, and
    leaves its books as they are, unless the input is a proof that the
    verifier accepts: then the verifier was called on it and [OT_START]
    was sent for the books just loaded. *)
Lemma step_sender_source s w i :
  let '(s', _, evs) := step purchaseId s w i in
  ((is_Some (otSender s') → is_Some (otSender s))
   ∧ session_books s' = session_books s)
  ∨ ∃ proof publicSignals,
      i = Message (ZKP_PROVE proof publicSignals)
      ∧ groth16_verify publicSignals proof = Ok true
      ∧ evs = [Groth16Verify publicSignals proof;
               WsSend (OT_START (length (session_books s')))].
Proof.
  destruct i as [m|k]; cbn [step].
  - destruct m; cbn [handle_message].
    + unfold handle_INIT.
      destruct (verifyJwt token) as [[sub|]|]; try (cbn; by left).
      pose proof (handleInitLogic_fields purchaseId
                    (MkSession sub (purchase s) (otSender s)
                       (session_books s) (intervals s)) w) as Hi.
      destruct (handleInitLogic _ _ _) as [[success s2] evs].
      destruct Hi as (H1 & H2 & _). cbn in H1, H2.
      destruct success; cbn; left; by rewrite H1, H2.
    + unfold handle_ZKP_PROVE.
      destruct (purchase s) as [p|]; [|cbn; by left].
      case_bool_decide; [cbn; by left|].
      destruct (groth16_verify publicSignals proof) as [[|]|] eqn:Hv;
        try (cbn; by left).
      destruct (exec_update _ _) as [[t n]|]; [|cbn; by left].
      case_bool_decide; [cbn; by left|].
      destruct (new_SemiHonestOtSender _ _) as [sender e]. cbn.
      right. by exists proof, publicSignals.
    + pose proof (proj1 (session_kept purchaseId s w)) as Hk.
      destruct (handle_OT_ACK_START s w) as [[s' w'] evs]. cbn in Hk.
      subst. by left.
    + unfold handle_OT_ROUND_RESPONSE.
      destruct (otSender s) as [o|] eqn:Ho; [|cbn; left; by rewrite Ho].
      destruct (processRoundResponse _ _ _ _) as [[o2 evs] e2]. cbn.
      left. split; [by eauto|done].
    + pose proof (proj1 (proj2 (session_kept purchaseId s w))) as Hk.
      destruct (handle_OT_ROUNDS_COMPLETE s w) as [[s' w'] evs]. cbn in Hk.
      subst. by left.
    + pose proof (proj1 (proj2 (proj2 (session_kept purchaseId s w)))
                    bookIndex) as Hk.
      destruct (handle_REQUEST_SIGNED_URL s w bookIndex) as [[s' w'] evs].
      cbn in Hk. subst. by left.
    + pose proof (proj2 (proj2 (proj2 (session_kept purchaseId s w)))) as Hk.
      destruct (handle_DOWNLOAD_READY purchaseId s w) as [[s' w'] evs].
      cbn in Hk. subst. by left.
    + cbn. by left.
  - unfold handle_Tick.
    destruct (intervals s !! k) as [[attempts|]|]; try (cbn; by left).
    pose proof (handleInitLogic_fields purchaseId s w) as Hi.
    destruct (handleInitLogic _ _ _) as [[success s2] evs].
    destruct Hi as (H1 & H2 & _).
    destruct (success || _); cbn; left; by rewrite H1, H2.
Qed.

(** A session holds a sender only after the verifier has accepted a proof
    on this connection: the call is among the calls made, the verifier's
    answer to it is [true], and [OT_START] was sent for the books that the
    session holds. *)
Lemma history_sender s past :
  history purchaseId s past → is_Some (otSender s) →
  ∃ proof publicSignals,
    Groth16Verify publicSignals proof ∈ past
    ∧ groth16_verify publicSignals proof = Ok true
    ∧ WsSend (OT_START (length (session_books s))) ∈ past.
Proof.
  induction 1 as [|s past w i Hs IH]; [by intros [? ?]|].
  pose proof (step_sender_source s w i) as Hsrc.
  destruct (step purchaseId s w i) as [[s' w'] evs]. cbn [fst snd].
  intros Hsome.
  destruct Hsrc as [[Hkeep Hbooks]|(proof & ps & _ & Hv & ->)].
  - destruct (IH (Hkeep Hsome)) as (proof & ps & Hin & Hv & Hstart).
    exists proof, ps. rewrite Hbooks.
    split_and!; [|done|]; apply elem_of_app; by left.
  - exists proof, ps.
    split_and!; [|done|]; apply elem_of_app; right.
    + by left.
    + right. by left.
Qed.

(** X5.  A download reference is sent only in reply to [REQUEST_SIGNED_URL]
    with an index that selects a book of the session, and only on a
    connection that holds a sender and a loaded purchase.  Such a
    connection has had a proof accepted: among the calls it made before
    is a call of the verifier whose answer is [true], followed by the
    [OT_START] for the books that the session holds.  A connection whose
    proofs were all rejected holds no sender and gets no reference. *)
Theorem download_reference_needs_accepted_proof s past w i ev :
  history purchaseId s past →
  ev ∈ (step purchaseId s w i).2 → is_signed_url ev = true →
  (∃ bookIndex book o p,
     i = Message (REQUEST_SIGNED_URL bookIndex)
     ∧ js_index (session_books s) bookIndex = Some book
     ∧ otSender s = Some o
     ∧ purchase s = Some p)
  ∧ (∃ proof publicSignals,
       Groth16Verify publicSignals proof ∈ past
       ∧ groth16_verify publicSignals proof = Ok true
       ∧ WsSend (OT_START (length (session_books s))) ∈ past)
  ∧ ¬ (∀ proof publicSignals,
         Groth16Verify publicSignals proof ∈ past →
         groth16_verify publicSignals proof ≠ Ok true).
Proof.
  intros Hs Hin Hurl.
  destruct (signed_url_source s w i ev (history_reachable s past Hs) Hin Hurl)
    as (bookIndex & book & o & p & Hi & Hb & Ho & Hp).
  destruct (history_sender s past Hs) as (proof & ps & Hcall & Hv & Hstart).
  { rewrite Ho. by eexists. }
  split_and!.
  - by exists bookIndex, book, o, p.
  - by exists proof, ps.
  - intros Hrej. by apply (Hrej proof ps).
Qed.

(** X6.  The item at position [i] of [OT_DELIVER] and the file served for
    [bookIndex = i] belong to the same book: the ciphertext holds that
    book's secret key under the master key of [i], and the reference is
    signed for that book's [file_key]. *)
Theorem delivery_and_download_agree `{!CryptoLaws} s w o i book :
  reachable purchaseId s → otSender s = Some o →
  session_books s !! i = Some book →
  (∃ l ct tag,
     (handle_OT_ROUNDS_COMPLETE s w).2 = [WsSend (OT_DELIVER l)]
     ∧ aes_256_gcm (masterKey_of o i) (nonce_at (entropy w) i)
         (hex_decode (secret_key book)) = Ok (ct, tag)
     ∧ l !! i = Some (hex_encode (nonce_at (entropy w) i ++ ct ++ tag)))
  ∧ ∀ bucket url,
      R2_BUCKET_NAME w = Some bucket → bucket ≠ "" →
      getSignedUrl bucket (file_key book) = Ok url →
      handle_REQUEST_SIGNED_URL s w (Z.of_nat i)
      = (s, w, [WsSend (SIGNED_URL url)]).
Proof.
  intros Hs Ho Hb.
  pose proof (reachable_session_inv purchaseId s Hs) as Hinv.
  unfold session_inv in Hinv. rewrite Ho in Hinv. destruct Hinv as [Hsec _].
  split.
  - destruct (sendFinalSecrets_spec o (entropy w)) as (l & Hl & _ & Hitems).
    assert (bookSecrets o !! i = Some (hex_decode (secret_key book))) as Hi.
    { by rewrite Hsec, list_lookup_fmap, Hb. }
    destruct (Hitems i _ Hi) as (ct & tag & Hc & Hli).
    exists l, ct, tag. split_and!; [|done..].
    unfold handle_OT_ROUNDS_COMPLETE, uncaught_or. by rewrite Ho, Hl.
  - intros bucket url Hbk Hne Hurl. unfold handle_REQUEST_SIGNED_URL, js_index.
    rewrite bool_decide_true by lia. rewrite Nat2Z.id, Hb, Hbk.
    rewrite bool_decide_false by done. by rewrite Hurl.
Qed.

(** X7.  A request for a book of the session fails, with a close, when the
    bucket name is not configured or the presigner throws; the session is
    unchanged and no reference is sent. *)
Theorem download_reference_failures s w bookIndex book :
  js_index (session_books s) bookIndex = Some book →
  ((R2_BUCKET_NAME w = None ∨ R2_BUCKET_NAME w = Some "") →
   handle_REQUEST_SIGNED_URL s w bookIndex
   = (s, w, [WsClose 1011 "server configuration error."]))
  ∧ (∀ bucket c,
       R2_BUCKET_NAME w = Some bucket → bucket ≠ "" →
       getSignedUrl bucket (file_key book) = Throws c →
       handle_REQUEST_SIGNED_URL s w bookIndex
       = (s, w, [WsClose 1011 "failed to get download link."])).
Proof.
  intros Hb. unfold handle_REQUEST_SIGNED_URL. rewrite Hb. split.
  - intros [-> | ->]; [done|]. by rewrite bool_decide_true.
  - intros bucket c -> Hne ->. by rewrite bool_decide_false.
Qed.
End download.

(** ** Waiting for the payment *)

Section waiting.
Context `{Crypto} `{Collab}.
Variable purchaseId : string.

Lemma run_cons s w i rest :
  run purchaseId s w (i :: rest)
  = let '(s1, w1, evs) := step purchaseId s w i in
    let '(s2, w2, evs') := run purchaseId s1 w1 rest in
    (s2, w2, evs ++ evs').
Proof. reflexivity. Qed.

Lemma handleInitLogic_pending s w r :
  purchases (db w) !! purchaseId = Some r →
  user_id r = userId s → status r = pending →
  handleInitLogic purchaseId s w = (false, s, []).
Proof.
  intros Hr Hu Hst. unfold handleInitLogic. rewrite Hr.
  rewrite bool_decide_true by done. rewrite Hst. done.
Qed.

Lemma handleInitLogic_paid s w r :
  purchases (db w) !! purchaseId = Some r →
  user_id r = userId s → status r = paid →
  handleInitLogic purchaseId s w
  = (true,
     MkSession (userId s) (Some (MkView (user_id r) paid (commitment r)))
       (otSender s) (session_books s) (intervals s),
     [WsSend ZKP_READY]).
Proof.
  intros Hr Hu Hst. unfold handleInitLogic. rewrite Hr.
  rewrite bool_decide_true by done. rewrite Hst. done.
Qed.

Lemma run_app s w l1 l2 :
  run purchaseId s w (l1 ++ l2)
  = let '(s1, w1, evs) := run purchaseId s w l1 in
    let '(s2, w2, evs') := run purchaseId s1 w1 l2 in
    (s2, w2, evs ++ evs').
Proof.
  revert s w. induction l1 as [|i l1 IH]; intros s w; cbn [app run].
  - by destruct (run purchaseId s w l2) as [[s2 w2] evs2].
  - destruct (step purchaseId s w i) as [[s1 w1] evs]. rewrite IH.
    destruct (run purchaseId s1 w1 l1) as [[s2 w2] evs2].
    destruct (run purchaseId s2 w2 l2) as [[s3 w3] evs3].
    by rewrite (assoc_L (++)).
Qed.

(** The ticks that only count: after [n] of them the timer holds
    [a + n], nothing was sent and the rest of the session is as before. *)
Lemma poll_counts n : ∀ s w k a r,
  (a + n ≤ 9)%nat →
  intervals s !! k = Some (Some a) →
  purchases (db w) !! purchaseId = Some r →
  user_id r = userId s → status r = pending →
  run purchaseId s w (replicate n (Tick k))
  = (set_intervals s (<[k := Some (a + n)%nat]> (intervals s)), w, []).
Proof.
  induction n as [|n IH]; intros s w k a r Ha Hk Hr Hu Hst.
  - cbn [replicate run]. rewrite Nat.add_0_r, list_insert_id by done.
    by destruct s.
  - rewrite replicate_S, run_cons. cbn [step]. unfold handle_Tick at 1.
    rewrite Hk, (handleInitLogic_pending s w r) by done.
    rewrite bool_decide_false by lia. cbn [orb].
    set (s1 := set_intervals s (<[k := Some (S a)]> (intervals s))).
    assert (k < length (intervals s))%nat as Hlt by (by eapply lookup_lt_Some).
    rewrite (IH s1 w k (S a) r); try done; try lia.
    + cbn. unfold set_intervals. cbn. rewrite list_insert_insert_eq.
      by replace (S (a + n)) with (a + S n)%nat by lia.
    + cbn. by rewrite list_lookup_insert_eq.
Qed.

(** X8.  While the purchase stays [pending], a polling timer that has
    counted [a] attempts ticks [10 - a] more times.  Each of the first
    [9 - a] ticks does nothing but count: after [n ≤ 9 - a] ticks nothing
    was sent, the store is untouched and the timer holds [a + n].  Tick
    [10 - a] closes the socket with the timeout and clears the timer. *)
Theorem poll_times_out d s w k a r :
  (a + d)%nat = 9%nat →
  intervals s !! k = Some (Some a) →
  purchases (db w) !! purchaseId = Some r →
  user_id r = userId s → status r = pending →
  (∀ n, (n ≤ d)%nat →
     run purchaseId s w (replicate n (Tick k))
     = (set_intervals s (<[k := Some (a + n)%nat]> (intervals s)), w, []))
  ∧ step purchaseId
      (set_intervals s (<[k := Some (a + d)%nat]> (intervals s))) w (Tick k)
    = (set_intervals s (<[k := None]> (intervals s)), w,
       [WsClose 1011 "waiting for payment status update timeout."])
  ∧ run purchaseId s w (replicate (S d) (Tick k))
    = (set_intervals s (<[k := None]> (intervals s)), w,
       [WsClose 1011 "waiting for payment status update timeout."]).
Proof.
  intros Ha Hk Hr Hu Hst.
  assert (k < length (intervals s))%nat as Hlt by (by eapply lookup_lt_Some).
  assert (step purchaseId
            (set_intervals s (<[k := Some (a + d)%nat]> (intervals s))) w
            (Tick k)
          = (set_intervals s (<[k := None]> (intervals s)), w,
             [WsClose 1011 "waiting for payment status update timeout."]))
    as Hlast.
  { cbn [step]. unfold handle_Tick.
    cbn [set_intervals intervals]. rewrite list_lookup_insert_eq by done.
    rewrite (handleInitLogic_pending _ w r) by done.
    rewrite bool_decide_true by lia. cbn [orb app].
    unfold set_intervals. cbn. by rewrite list_insert_insert_eq. }
  split_and!.
  - intros n Hn. apply (poll_counts n s w k a r); [lia | done..].
  - exact Hlast.
  - rewrite replicate_S_end, run_app.
    rewrite (poll_counts d s w k a r) by (done || lia).
    cbn [run]. rewrite Hlast. done.
Qed.
End waiting.

Section payment.
Context `{Crypto} `{Collab}.
Variable purchaseId : string.

(** The webhook's update written out row by row: a row of the given
    payment intent in status [pending] becomes [paid], every other row
    stays. *)
Lemma updated_paid_lookup intent t id :
  updated (update_paid intent) t !! id
  = (λ r, if bool_decide (stripe_payment_intent_id r = intent)
             && bool_decide (status r = pending)
          then MkPurchase (user_id r) (stripe_payment_intent_id r)
                 (commitment r) paid (nullifier_hash r)
          else r) <$> t !! id.
Proof. by rewrite updated_lookup. Qed.

Lemma exec_update_paid intent t :
  exec_update (update_paid intent) t
  = Ok (updated (update_paid intent) t, rowCount (update_paid intent) t).
Proof.
  unfold exec_update.
  by rewrite decide_False by (by apply no_violation_without_nullifier).
Qed.

(** X9.  The store changes under the webhook only for an event whose signature
    Stripe's library accepts and whose type is [payment_intent.succeeded];
    then the reply is 200 and the change is the update to [paid].  A
    request without signature, with a signature that does not verify, or
    with another event writes nothing. *)
Theorem webhook_writes_only_for_verified_payment signature rawBody t :
  let '(reply, t') := post_stripe signature rawBody t in
  ((signature = None ∨ signature = Some "") →
   reply = HttpException 400 "stripe-signature header is missing" ∧ t' = t)
  ∧ (∀ sig c, signature = Some sig → sig ≠ "" →
       constructEvent rawBody sig = Throws c →
       reply = HttpException 400 "Webhook error: " ∧ t' = t)
  ∧ (t' ≠ t →
     ∃ sig intent,
       signature = Some sig
       ∧ constructEvent rawBody sig = Ok (payment_intent_succeeded intent)
       ∧ reply = Json200
       ∧ t' = updated (update_paid intent) t).
Proof.
  unfold post_stripe. destruct signature as [sig|].
  - case_bool_decide as Hsig.
    + subst sig. split_and!; [done| intros ???; by simplify_eq |done].
    + destruct (constructEvent rawBody sig) as [[intent|ty]|c] eqn:Hev.
      * rewrite exec_update_paid. split_and!.
        -- intros [?|?]; simplify_eq.
        -- intros ?? [= <-] _ ?. congruence.
        -- intros _. by exists sig, intent.
      * split_and!; [intros [?|?]; simplify_eq | | done].
        intros ?? [= <-] _ ?. congruence.
      * split_and!; [intros [?|?]; simplify_eq | done | done].
  - split_and!; [done | intros ???; by simplify_eq | done].
Qed.

(** X10.  Stripe may send the same event again: the second delivery finds no
    [pending] row of that intent and leaves the store as the first one
    made it, with reply 200. *)
Theorem webhook_redelivery_changes_nothing sig rawBody intent t :
  sig ≠ "" →
  constructEvent rawBody sig = Ok (payment_intent_succeeded intent) →
  let t' := (post_stripe (Some sig) rawBody t).2 in
  post_stripe (Some sig) rawBody t' = (Json200, t')
  ∧ rowCount (update_paid intent) t' = 0%nat
  ∧ ∀ id r, t !! id = Some r →
      t' !! id
      = Some (if bool_decide (stripe_payment_intent_id r = intent)
                 && bool_decide (status r = pending)
              then MkPurchase (user_id r) intent (commitment r) paid
                     (nullifier_hash r)
              else r).
Proof.
  intros Hsig Hev.
  assert (∀ t0, post_stripe (Some sig) rawBody t0
                = (Json200, updated (update_paid intent) t0)) as Hpost.
  { intros t0. unfold post_stripe. rewrite bool_decide_false by done.
    by rewrite Hev, exec_update_paid. }
  rewrite Hpost. cbn [snd]. rewrite Hpost.
  assert (∀ id r, updated (update_paid intent) t !! id = Some r →
                  row_matches (update_paid intent) id r = false) as Hnone.
  { intros id r. rewrite updated_paid_lookup.
    destruct (t !! id) as [r0|]; [|done]. cbn. intros [= <-].
    unfold row_matches. cbn.
    destruct (bool_decide (stripe_payment_intent_id r0 = intent)) eqn:Hi;
      cbn; [|by rewrite Hi].
    destruct (bool_decide (status r0 = pending)) eqn:Hp; cbn.
    - by rewrite andb_false_r.
    - by rewrite Hi, Hp. }
  split_and!.
  - f_equal. apply map_eq. intros id. rewrite updated_lookup.
    destruct (updated (update_paid intent) t !! id) as [r|] eqn:Hr; [|done].
    cbn. by rewrite (Hnone id r Hr).
  - unfold rowCount. apply map_size_empty_iff. apply map_eq. intros id.
    rewrite lookup_empty. apply map_lookup_filter_None.
    destruct (updated (update_paid intent) t !! id) as [r|] eqn:Hr; [|by left].
    right. intros r' [= <-]. cbn. by rewrite (Hnone id r Hr).
  - intros id r Hr. rewrite updated_paid_lookup, Hr. cbn.
    case_bool_decide as Hi; [|done]. by rewrite Hi.
Qed.

(** X11.  The connection opens before the payment is confirmed: [INIT] finds the
    purchase [pending], sends nothing and starts a timer; the webhook then
    marks the purchase [paid]; the next tick of the timer loads the
    purchase, sends [ZKP_READY] and clears the timer. *)
Theorem payment_arrives_while_polling w token sub r sig rawBody :
  verifyJwt token = Ok (Some sub) →
  purchases (db w) !! purchaseId = Some r →
  user_id r = sub → status r = pending →
  sig ≠ "" →
  constructEvent rawBody sig
  = Ok (payment_intent_succeeded (stripe_payment_intent_id r)) →
  let '(s1, w1, evs1) := handle_INIT purchaseId initial_session w token in
  let '(reply, t2) := post_stripe (Some sig) rawBody (purchases (db w1)) in
  let '(s2, _, evs2) := handle_Tick purchaseId s1 (with_purchases w1 t2) 0 in
  evs1 = [] ∧ intervals s1 = [Some 0%nat] ∧ purchase s1 = None
  ∧ reply = Json200
  ∧ (status <$> t2 !! purchaseId) = Some paid
  ∧ evs2 = [WsSend ZKP_READY]
  ∧ purchase s2 = Some (MkView sub paid (commitment r))
  ∧ intervals s2 = [None].
Proof.
  intros Hjwt Hr Hu Hst Hsig Hev.
  unfold handle_INIT. rewrite Hjwt.
  rewrite (handleInitLogic_pending purchaseId _ w r) by done.
  unfold post_stripe. rewrite bool_decide_false by done.
  rewrite Hev, exec_update_paid.
  set (t2 := updated _ _).
  assert (t2 !! purchaseId
          = Some (MkPurchase (user_id r) (stripe_payment_intent_id r)
                    (commitment r) paid (nullifier_hash r))) as Hpaid.
  { unfold t2. rewrite updated_paid_lookup, Hr. cbn.
    by rewrite !bool_decide_true. }
  unfold handle_Tick. cbn [set_intervals intervals initial_session app lookup
                             list_lookup].
  rewrite (handleInitLogic_paid purchaseId _ (with_purchases w t2) _ Hpaid)
    by done.
  cbn. rewrite Hpaid, Hu. done.
Qed.

(** X12.  [INIT] never writes the store and never touches the sender.  It sends
    [ZKP_READY] exactly when the token verifies with a string [sub], the
    purchase exists, belongs to that user and is [paid]; only then does
    the session load a purchase. *)
Theorem init_loads_only_own_paid_purchase s w token :
  let '(s', w', evs) := handle_INIT purchaseId s w token in
  w' = w ∧ otSender s' = otSender s
  ∧ (WsSend ZKP_READY ∈ evs
     ↔ ∃ sub r, verifyJwt token = Ok (Some sub)
                ∧ purchases (db w) !! purchaseId = Some r
                ∧ user_id r = sub ∧ status r = paid)
  ∧ (purchase s' ≠ purchase s → WsSend ZKP_READY ∈ evs).
Proof.
  unfold handle_INIT.
  destruct (verifyJwt token) as [[sub|]|] eqn:Hjwt.
  - unfold handleInitLogic. cbn [userId].
    destruct (purchases (db w) !! purchaseId) as [r|] eqn:Hr.
    + case_bool_decide as Hu; [case_bool_decide as Hp|].
      * cbn. split_and!; [done..| |].
        -- split; [|intros _; apply list_elem_of_singleton; done].
           intros _. by exists sub, r.
        -- intros _. by apply list_elem_of_singleton.
      * case_bool_decide; cbn; (split_and!; [done..| |done]);
          (split; [intros Hin; by repeat (apply elem_of_cons in Hin as [?|Hin];
                                            [done|]); try by apply elem_of_nil in Hin
                  | intros (? & ? & ? & ? & ? & ?); simplify_eq]).
      * cbn. split_and!; [done..| |done].
        split; [intros ?%list_elem_of_singleton; done|].
        intros (? & ? & ? & ? & ? & ?); simplify_eq.
    + cbn. split_and!; [done..| |done].
      split; [intros ?%list_elem_of_singleton; done|].
      intros (? & ? & ? & ? & ? & ?); simplify_eq.
  - cbn. split_and!; [done..| |done].
    split; [intros ?%list_elem_of_singleton; done|].
    intros (? & ? & ? & ? & ? & ?); simplify_eq.
  - cbn. split_and!; [done..| |done].
    split; [intros ?%list_elem_of_singleton; done|].
    intros (? & ? & ? & ? & ? & ?); simplify_eq.
Qed.
End payment.

(** ** What a session writes *)

Section writes.
Context `{Crypto} `{Collab}.
Variable purchaseId : string.

(** An update by primary key either writes the selected row or nothing. *)
Lemma exec_update_by_id u id t t' n :
  where_key u = ById id → exec_update u t = Ok (t', n) →
  (∃ r, t !! id = Some r ∧ row_matches u id r = true
        ∧ t' = <[id := assign u r]> t ∧ n = 1%nat)
  ∨ (t' = t ∧ n = 0%nat).
Proof.
  intros Hk. unfold exec_update. case_decide; [done|]. intros [= <- <-].
  destruct (t !! id) as [r|] eqn:Hr.
  - destruct (row_matches u id r) eqn:Hm.
    + left. exists r. split_and!; [done..| |].
      * by apply updated_by_id_hit.
      * by eapply rowCount_by_id_hit.
    + right. split.
      * apply (updated_by_id_miss u id); [done|]. congruence.
      * apply (rowCount_by_id_miss u id); [done|]. congruence.
  - right. split.
    + apply (updated_by_id_miss u id); [done|]. congruence.
    + apply (rowCount_by_id_miss u id); [done|]. congruence.
Qed.

Lemma zkp_store s w proof publicSignals :
  let '(_, w', _) := handle_ZKP_PROVE purchaseId s w proof publicSignals in
  purchases (db w') = purchases (db w)
  ∨ ∃ p r,
      purchase s = Some p
      ∧ publicSignals !! 2%nat = Some (view_commitment p)
      ∧ groth16_verify publicSignals proof = Ok true
      ∧ purchases (db w) !! purchaseId = Some r
      ∧ status r = paid
      ∧ purchases (db w')
        = <[purchaseId := MkPurchase (user_id r) (stripe_payment_intent_id r)
                            (commitment r) verified (publicSignals !! 0%nat)]>
            (purchases (db w)).
Proof.
  unfold handle_ZKP_PROVE.
  destruct (purchase s) as [p|]; [|by left].
  case_bool_decide as Hc; [by left|].
  destruct (groth16_verify publicSignals proof) as [[|]|] eqn:Hv;
    try by left.
  destruct (exec_update _ _) as [[t n]|c] eqn:Hex; [|by left].
  destruct (exec_update_by_id
              (update_verified (publicSignals !! 0%nat) purchaseId)
              purchaseId _ _ _ eq_refl Hex)
    as [(r & Hr & Hm & -> & ->)|[-> ->]].
  - rewrite bool_decide_false by done.
    destruct (new_SemiHonestOtSender _ _) as [sender e]. cbn.
    right. exists p, r. split_and!; try done.
    rewrite row_matches_verified in Hm.
    apply andb_true_iff in Hm as [_ Hm]. by apply bool_decide_eq_true in Hm.
  - rewrite bool_decide_true by done. cbn. by left.
Qed.

(** X13.  The proof phase writes the store only for a proof that the verifier
    accepted, whose commitment matches the session's purchase, and only
    on a row in status [paid]: that row becomes [verified] and gets the
    proof's nullifier.  In every other case the store is as before. *)
Theorem store_written_only_for_verified_proof s w proof publicSignals :
  let '(_, w', _) := handle_ZKP_PROVE purchaseId s w proof publicSignals in
  purchases (db w') ≠ purchases (db w) →
  ∃ p r,
    purchase s = Some p
    ∧ publicSignals !! 2%nat = Some (view_commitment p)
    ∧ groth16_verify publicSignals proof = Ok true
    ∧ purchases (db w) !! purchaseId = Some r
    ∧ status r = paid
    ∧ purchases (db w')
      = <[purchaseId := MkPurchase (user_id r) (stripe_payment_intent_id r)
                          (commitment r) verified (publicSignals !! 0%nat)]>
          (purchases (db w)).
Proof.
  pose proof (zkp_store s w proof publicSignals) as Hz.
  destruct (handle_ZKP_PROVE _ _ _ _ _) as [[s' w'] evs].
  intros Hne. by destruct Hz as [Heq|Hex].
Qed.

(** What one input can do to the store: nothing, or the update of the
    proof phase, or the update to [completed], both on the purchase of
    the connection. *)
Lemma step_store s w i :
  let t := purchases (db w) in
  let t' := purchases (db (step purchaseId s w i).1.2) in
  t' = t
  ∨ (∃ r n, t !! purchaseId = Some r ∧ status r = paid
            ∧ t' = <[purchaseId := assign (update_verified n purchaseId) r]> t)
  ∨ (∃ r, t !! purchaseId = Some r
          ∧ t' = <[purchaseId := assign (update_completed purchaseId) r]> t).
Proof.
  cbn zeta. destruct i as [m|k]; cbn [step].
  - destruct m; cbn [handle_message].
    + left. unfold handle_INIT. destruct (verifyJwt token) as [[sub|]|]; try done.
      destruct (handleInitLogic _ _ _) as [[[] s2] evs]; done.
    + pose proof (zkp_store s w proof publicSignals) as Hw.
      destruct (handle_ZKP_PROVE _ _ _ _ _) as [[s' w'] evs]. cbn.
      destruct Hw as [Heq|(p & r & _ & _ & _ & Hr & Hst & ->)]; [by left|].
      right. left. by exists r, (publicSignals !! 0%nat).
    + left. unfold handle_OT_ACK_START, uncaught_or.
      repeat case_match; done.
    + left. unfold handle_OT_ROUND_RESPONSE.
      destruct (otSender s); [|done].
      by destruct (processRoundResponse _ _ _ _) as [[o2 evs] e2].
    + left. unfold handle_OT_ROUNDS_COMPLETE, uncaught_or.
      repeat case_match; done.
    + left. unfold handle_REQUEST_SIGNED_URL. repeat case_match; done.
    + unfold handle_DOWNLOAD_READY.
      destruct (exec_update _ _) as [[t n]|c] eqn:Hex; [|by left].
      destruct (exec_update_by_id (update_completed purchaseId) purchaseId
                  _ _ _ eq_refl Hex)
        as [(r & Hr & _ & -> & _)|[-> _]]; [|by left].
      right. right. by exists r.
    + by left.
  - left. unfold handle_Tick.
    destruct (intervals s !! k) as [[attempts|]|]; try done.
    destruct (handleInitLogic _ _ _) as [[success s2] evs].
    by destruct (success || _).
Qed.

(** X14.  No input of a session creates or deletes a purchase, and none changes
    a purchase's owner, payment intent or commitment.  A nullifier is
    written only on a row that is [paid], and a row that is [completed]
    stays as it is.  A row that changes becomes [verified] (from [paid])
    or [completed]. *)
Theorem step_keeps_rows s w i id :
  match purchases (db w) !! id,
        purchases (db (step purchaseId s w i).1.2) !! id with
  | None, None => True
  | Some r, Some r' =>
      user_id r' = user_id r
      ∧ stripe_payment_intent_id r' = stripe_payment_intent_id r
      ∧ commitment r' = commitment r
      ∧ (status r ≠ paid → nullifier_hash r' = nullifier_hash r)
      ∧ (status r = completed → r' = r)
      ∧ (r' = r
         ∨ status r = paid ∧ status r' = verified
         ∨ status r' = completed)
  | _, _ => False
  end.
Proof.
  pose proof (step_store s w i) as Hst. cbn zeta in Hst.
  destruct Hst as [-> | [(r0 & n & Hr0 & Hp & ->) | (r0 & Hr0 & ->)]].
  - destruct (purchases (db w) !! id) as [r|]; [|done].
    split_and!; try done. by left.
  - destruct (decide (id = purchaseId)) as [->|Hne].
    + rewrite Hr0, lookup_insert_eq. cbn.
      split_and!; try done.
      * intros Hc. rewrite Hp in Hc. discriminate.
      * right. by left.
    + rewrite lookup_insert_ne by done.
      destruct (purchases (db w) !! id) as [r|]; [|done].
      split_and!; try done. by left.
  - destruct (decide (id = purchaseId)) as [->|Hne].
    + rewrite Hr0, lookup_insert_eq. cbn.
      split_and!; try done.
      * intros Hc. destruct r0. cbn in *. by subst.
      * right. by right.
    + rewrite lookup_insert_ne by done.
      destruct (purchases (db w) !! id) as [r|]; [|done].
      split_and!; try done. by left.
Qed.
End writes.

(** ** Accounts *)

Section accounts.
Context `{Accounts}.

(** X15.  A registration without email or password, or with a password of fewer
    than eight characters, is answered 400: no hash is computed and no
    user is stored. *)
Theorem register_rejects_weak_password email password newId now users e :
  falsy email = true ∨ falsy password = true
  ∨ (∃ pw, password = Some pw ∧ (String.length pw < 8)%nat) →
  register email password newId now users e
  = (UsersError 400
       "email and password are required, and password must be at least 8 characters long",
     users, e).
Proof.
  intros Hbad. unfold register.
  destruct email as [em|], password as [pw|]; try done.
  destruct Hbad as [-> | [-> | (pw' & [= <-] & Hlt)]]; [done| |].
  - by rewrite orb_true_r.
  - by rewrite (bool_decide_true _ Hlt), orb_true_r.
Qed.

(** X16.  A registration for an email that is taken is answered 409 and the
    table is as before; the stored hash of the first registration is not
    replaced. *)
Theorem register_duplicate_email em pw newId now users e u :
  users !! em = Some u → em ≠ "" → (8 ≤ String.length pw)%nat →
  register (Some em) (Some pw) newId now users e
  = (UsersError 409 "this email already exists", users,
     (randomBytes 16 e).2).
Proof.
  intros Hu Hem Hpw. unfold register. cbn [falsy].
  rewrite (bool_decide_false (em = "")) by done.
  rewrite (bool_decide_false (pw = "")) by (intros ->; cbn in Hpw; lia).
  rewrite bool_decide_false by lia. cbn [orb]. by rewrite Hu.
Qed.

(** X17.  Registration followed by login with the same password: the user is
    stored under the email, the other users are untouched, and the login
    signs a token for the new user's id that expires 24 hours after the
    second in which it was issued. *)
Theorem register_then_login em pw newId now nowMs users e :
  users !! em = None → em ≠ "" → (8 ≤ String.length pw)%nat →
  (∀ salt, bcrypt_compare pw (bcrypt_hash pw salt) = true) →
  let '(reply, users', _) :=
    register (Some em) (Some pw) newId now users e in
  reply = Registered newId em now
  ∧ users' = <[em := MkUser newId (bcrypt_hash pw (randomBytes 16 e).1) now]>
               users
  ∧ login (Some em) (Some pw) nowMs users'
    = match jwt_sign (MkClaims newId em (nowMs / 1000 + 86400)) with
      | Ok token => LoggedIn token
      | Throws _ => UsersError 500 "login failed, server internal error"
      end.
Proof.
  intros Hfree Hem Hpw Hlaw. unfold register. cbn [falsy].
  assert (pw ≠ "") as Hpw' by (intros ->; cbn in Hpw; lia).
  rewrite (bool_decide_false (em = "")) by done.
  rewrite (bool_decide_false (pw = "")) by done.
  rewrite bool_decide_false by lia. cbn [orb]. rewrite Hfree.
  cbn [randomBytes fst snd]. split_and!; [done..|].
  unfold login. cbn [falsy].
  rewrite (bool_decide_false (em = "")) by done.
  rewrite (bool_decide_false (pw = "")) by done. cbn [orb].
  rewrite lookup_insert_eq. cbn [password_hash uid].
  rewrite Hlaw. by rewrite bool_decide_false.
Qed.

(** X18.  A token is issued only to a stored user whose password [bcrypt]
    accepts against the stored hash; it carries that user's id and email.
    An unknown email and a wrong password get the same reply. *)
Theorem login_token_only_for_matching_password email password nowMs users :
  (∀ token,
     login email password nowMs users = LoggedIn token →
     ∃ em pw user,
       email = Some em ∧ password = Some pw
       ∧ users !! em = Some user
       ∧ bcrypt_compare pw (password_hash user) = true
       ∧ jwt_sign (MkClaims (uid user) em (nowMs / 1000 + 86400)) = Ok token)
  ∧ (∀ em pw,
       email = Some em → password = Some pw → em ≠ "" → pw ≠ "" →
       (users !! em = None
        ∨ ∃ user, users !! em = Some user
                  ∧ bcrypt_compare pw (password_hash user) = false) →
       login email password nowMs users
       = UsersError 401 "invalid email or password").
Proof.
  unfold login. split.
  - intros token.
    destruct email as [em|], password as [pw|]; try done.
    destruct (falsy (Some em) || falsy (Some pw)); [done|].
    destruct (users !! em) as [user|] eqn:Hu; [|done].
    case_bool_decide as Hc; [done|].
    destruct (jwt_sign _) as [tok|] eqn:Hs; [|done].
    intros [= <-]. exists em, pw, user. split_and!; try done.
    by destruct (bcrypt_compare pw (password_hash user)).
  - intros em pw -> -> Hem Hpw Hcase. cbn [falsy].
    rewrite (bool_decide_false (em = "")) by done.
    rewrite (bool_decide_false (pw = "")) by done. cbn [orb].
    destruct Hcase as [-> | (user & -> & Hc)]; [done|].
    by rewrite bool_decide_true.
Qed.
End accounts.

(** ** Orders *)

Section ordering.
Context `{Crypto} `{Collab} `{Stripe}.

(** X19.  An order creates at most one payment intent, and only for an amount
    that is the price of a book.  A purchase is stored only after the
    intent was created: it is [pending], without nullifier, owned by the
    caller and holds the commitment of the request.  Every error reply
    leaves the table as it was. *)
Theorem order_charges_only_catalog_prices
    userId commitmentHash priceInCents prices newId t :
  let '(reply, t', amounts) :=
    post_order userId commitmentHash priceInCents prices newId t in
  Forall (λ a, a ∈ prices) amounts
  ∧ (length amounts ≤ 1)%nat
  ∧ match reply with
    | OrderCreated orderId clientSecret =>
        orderId = newId
        ∧ t !! newId = None
        ∧ ∃ c price intent,
            commitmentHash = Some c ∧ priceInCents = Some price
            ∧ c ≠ "" ∧ price ∈ prices
            ∧ paymentIntents_create price userId = Ok (intent, clientSecret)
            ∧ amounts = [price]
            ∧ t' = <[newId := MkPurchase userId intent c pending None]> t
    | OrderError _ _ => t' = t
    end.
Proof.
  unfold post_order.
  destruct commitmentHash as [c|], priceInCents as [price|];
    try (split_and!; [constructor | cbn; lia | done]).
  cbn [falsy].
  case_bool_decide as Hc; cbn [orb];
    [split_and!; [constructor | cbn; lia | done]|].
  case_bool_decide as Hz; [split_and!; [constructor | cbn; lia | done]|].
  case_bool_decide as Hp; [split_and!; [constructor | cbn; lia | done]|].
  destruct (paymentIntents_create price userId) as [[intent secret]|] eqn:Hcr;
    [|split_and!; [constructor | cbn; lia | done]].
  destruct (t !! newId) eqn:Hnew.
  - split_and!; [by repeat constructor | cbn; lia | done].
  - split; [by repeat constructor|]. split; [cbn; lia|].
    split_and!; [done..|]. by exists c, price, intent.
Qed.

End ordering.

(** ** The WebSocket route *)

Lemma strip_prefix_app p s : strip_prefix p (p +:+ s) = Some s.
Proof.
  induction p as [|a p IH]; [by destruct s|].
  simpl. by rewrite bool_decide_true.
Qed.

Lemma strip_prefix_Some p s rest :
  strip_prefix p s = Some rest → s = p +:+ rest.
Proof.
  revert s. induction p as [|a p IH]; intros s.
  - destruct s; cbn; by intros [= <-].
  - destruct s as [|b s]; [done|]. cbn. case_bool_decide as Hab; [|done].
    intros Hs. subst b.
    change (String a p +:+ rest) with (String a (p +:+ rest)).
    f_equal. by apply IH.
Qed.

Lemma dot_star_single_line s : single_line s = true → dot_star s = s.
Proof.
  induction s as [|c s IH]; [done|]. cbn.
  intros [Hc Hs]%andb_true_iff. apply negb_true_iff in Hc. rewrite Hc.
  f_equal. by apply IH.
Qed.

Lemma dot_star_prefix s :
  single_line (dot_star s) = true ∧ ∃ rest, s = dot_star s +:+ rest.
Proof.
  induction s as [|c s [IH1 [rest IH2]]]; [split; [done|by exists ""]|].
  cbn. destruct (line_terminator c) eqn:Hc.
  - split; [done|]. by exists (String c s).
  - split; [cbn; by rewrite Hc|]. exists rest.
    change (String c (dot_star s) +:+ rest)
      with (String c (dot_star s +:+ rest)).
    by f_equal.
Qed.

(** X21.  A connection is handed to the purchase handler exactly for a path
    that continues [/ws/api/purchase/] with at least one character; the
    purchase id is the rest of the path up to its first line break, so
    the path of an id is routed to that id.  Every other connection is
    closed with 1011. *)
Theorem ws_route_roundtrip pathname :
  (∀ purchaseId,
     purchaseId ≠ "" → single_line purchaseId = true →
     on_connection (Some ("/ws/api/purchase/" +:+ purchaseId))
     = ToPurchase purchaseId)
  ∧ match on_connection pathname with
    | ToPurchase purchaseId =>
        purchaseId ≠ "" ∧ single_line purchaseId = true
        ∧ ∃ rest, pathname
                  = Some ("/ws/api/purchase/" +:+ purchaseId +:+ rest)
    | Refused code reason =>
        code = 1011 ∧ reason = "Invalid WebSocket endpoint"
    end.
Proof.
  split.
  - intros id Hne Hline. unfold on_connection.
    rewrite strip_prefix_app, dot_star_single_line by done.
    by rewrite bool_decide_false.
  - unfold on_connection. destruct pathname as [path|]; [|done].
    destruct (strip_prefix _ path) as [rest|] eqn:Hp; [|done].
    case_bool_decide as He; [done|].
    destruct (dot_star_prefix rest) as [Hline [rest' Hrest]].
    split_and!; [done..|]. exists rest'.
    apply strip_prefix_Some in Hp. by rewrite Hp, Hrest at 1.
Qed.

(** ** The search of the catalogue *)

(** X22.  The statement of the search, case by case.  Without a query
    (absent or empty) it is the plain [SELECT], with no [WHERE] clause and
    no parameter, whatever [type] is.  With a query the one parameter is
    [%query%], and the [WHERE] clause is on [title] for type [title], on
    [author] for type [author], and on both columns for every other or
    absent [type].  So the statement is always one of four fixed texts:
    the query reaches the database only as the bound parameter, and
    [type] enters the statement only when it is [title] or [author]. *)
Theorem books_search_statements query type :
  (falsy query = true →
   books_search query type
   = ("SELECT id, title, author, description, price_cents FROM books", []))
  ∧ (∀ q, query = Some q → q ≠ "" →
       (type = Some "title" →
        books_search query type
        = ("SELECT id, title, author, description, price_cents FROM books WHERE title ILIKE $1",
           ["%" +:+ q +:+ "%"]))
       ∧ (type = Some "author" →
          books_search query type
          = ("SELECT id, title, author, description, price_cents FROM books WHERE author ILIKE $1",
             ["%" +:+ q +:+ "%"]))
       ∧ (type ≠ Some "title" → type ≠ Some "author" →
          books_search query type
          = ("SELECT id, title, author, description, price_cents FROM books WHERE title ILIKE $1 OR author ILIKE $1",
             ["%" +:+ q +:+ "%"])))
  ∧ let '(sqlQuery, params) := books_search query type in
    sqlQuery
    ∈ ["SELECT id, title, author, description, price_cents FROM books";
       "SELECT id, title, author, description, price_cents FROM books WHERE title ILIKE $1";
       "SELECT id, title, author, description, price_cents FROM books WHERE author ILIKE $1";
       "SELECT id, title, author, description, price_cents FROM books WHERE title ILIKE $1 OR author ILIKE $1"]
    ∧ (params = [] ∧ falsy query = true
       ∨ ∃ q, query = Some q ∧ q ≠ "" ∧ params = ["%" +:+ q +:+ "%"]).
Proof.
  split_and!.
  - unfold books_search. destruct query as [q|]; [|done].
    intros Hq. by rewrite Hq.
  - intros q -> Hq. unfold books_search. cbn [falsy].
    rewrite (bool_decide_false (q = "")) by done.
    split_and!.
    + by intros ->.
    + by intros ->.
    + intros Ht Ha. destruct type as [ty|]; [|done].
      rewrite (bool_decide_false (ty = "title")) by congruence.
      by rewrite (bool_decide_false (ty = "author")) by congruence.
  - unfold books_search. destruct query as [q|].
    2:{ split; [set_solver|by left]. }
    cbn [falsy]. case_bool_decide as Hq.
    { split; [set_solver|by left]. }
    destruct type as [ty|].
    2:{ split; [cbn; set_solver|right; by exists q]. }
    destruct (bool_decide (ty = "title")) eqn:Ht.
    { apply bool_decide_eq_true in Ht as ->.
      split; [cbn; set_solver|right; by exists q]. }
    destruct (bool_decide (ty = "author")) eqn:Ha.
    { apply bool_decide_eq_true in Ha as ->.
      split; [cbn; set_solver|right; by exists q]. }
    split; [cbn; set_solver|right; by exists q].
Qed.

(** ** The upload of a book *)

Section uploading.
Context `{Crypto} `{!CryptoLaws} `{Host}.

(** X23.  The file is encrypted under a fresh key of 32 random bytes, which the
    cipher accepts; the body stored in the bucket is
    nonce ∥ ciphertext ∥ tag, 28 bytes longer than the file and exactly
    what [aesGcmEncrypt] returns for this key: the book and the keys of
    the oblivious transfer have one wire format.  The key printed for the
    database is the one the body is encrypted under. *)
Theorem upload_uses_wire_format bucket filePath nowMs e fileBuffer :
  existsSync filePath = true →
  readFileSync filePath = Ok fileBuffer →
  (∀ key body, putObject bucket key body = Ok ()) →
  let '(secretKey, e1) := randomBytes 32 e in
  ∃ ct tag,
    aes_256_gcm secretKey (nonce_at e1 0) fileBuffer = Ok (ct, tag)
    ∧ (uploadEncryptedBook bucket filePath nowMs e).1
      = Some (MkUploaded (hex_encode secretKey)
                (path_stem filePath +:+ "_" +:+ pretty nowMs
                 +:+ path_extname filePath +:+ ".encrypted")
                (nonce_at e1 0 ++ ct ++ tag))
    ∧ length (nonce_at e1 0 ++ ct ++ tag) = (length fileBuffer + 28)%nat
    ∧ (aesGcmEncrypt secretKey fileBuffer e1).1
      = Ok (nonce_at e1 0 ++ ct ++ tag).
Proof.
  intros Hex Hread Hput.
  pose proof (randomBytes_length 32 e) as Hlen.
  unfold uploadEncryptedBook. rewrite Hex.
  destruct (randomBytes 32 e) as [secretKey e1]. cbn [fst] in Hlen.
  destruct (aesGcmEncrypt_Ok secretKey fileBuffer e1 Hlen)
    as (ct & tag & Hc & Hct & Htag & Hr).
  rewrite <- nonce_at_0 in Hc, Hr.
  exists ct, tag. split_and!.
  - done.
  - rewrite Hread.
    change (encrypt fileBuffer secretKey e1)
      with (aesGcmEncrypt secretKey fileBuffer e1).
    rewrite Hr. by rewrite Hput.
  - rewrite !length_app. unfold nonce_at. rewrite length_map, length_seq. lia.
  - by rewrite Hr.
Qed.
End uploading.

(** ** The further properties on the sample data *)

Section further_samples.
#[local] Existing Instance Sample.crypto.
#[local] Existing Instance Sample.collab.
#[local] Existing Instance sample_laws.
#[local] Existing Instance Demo.accounts.
#[local] Existing Instance Demo.stripe.
#[local] Existing Instance Demo.host.

Lemma round_response_accepted_sample :
  let o := Sample.sender4 in
  let e := Sample.entropy0 in
  let k0 := p256_randomSecretKey e in
  let k1 := p256_randomSecretKey k0.2 in
  let pub := hex_decode Sample.client_key in
  p256_getSharedSecret k0.1 pub = Ok (zip_with Z.lxor k0.1 pub)
  ∧ p256_getSharedSecret k1.1 pub = Ok (zip_with Z.lxor k1.1 pub)
  ∧ ∃ g0 g1 x0 x1,
      processRoundResponse o 0 Sample.client_key e
      = (MkSender (bookSecrets o) 2 1 (roundSeeds o),
         [WsSend (OT_ROUND_CHALLENGE 0 g0 g1 x0 x1);
          WsSend (OT_ROUND_START 1)],
         MkEntropy (stream k1.2) (cursor k1.2 + 24)).
Proof.
  intros o e k0 k1 pub.
  assert (p256_getSharedSecret k0.1 pub = Ok (zip_with Z.lxor k0.1 pub))
    as Hss0 by (vm_compute; reflexivity).
  assert (p256_getSharedSecret k1.1 pub = Ok (zip_with Z.lxor k1.1 pub))
    as Hss1 by (vm_compute; reflexivity).
  split_and!; [exact Hss0 | exact Hss1 |].
  destruct (roundSeeds o !! currentRound o) as [seeds|] eqn:Hs;
    [|vm_compute in Hs; discriminate Hs].
  assert (p256_randomSecretKey e = (k0.1, k0.2)) as Hk0 by reflexivity.
  assert (p256_randomSecretKey k0.2 = (k1.1, k1.2)) as Hk1 by reflexivity.
  destruct (round_response_accepted o Sample.client_key e seeds
              k0.1 k0.2 k1.1 k1.2 _ _ Hs Hk0 Hk1 Hss0 Hss1
              ltac:(vm_compute; reflexivity) ltac:(vm_compute; reflexivity))
    as (c0 & t0 & c1 & t1 & _ & _ & Hr).
  eexists _, _, _, _. exact Hr.
Defined.

Lemma round_response_invalid_key_sample :
  let o := Sample.sender4 in
  let e := Sample.entropy0 in
  let k0 := p256_randomSecretKey e in
  let k1 := p256_randomSecretKey k0.2 in
  p256_getSharedSecret k0.1 (hex_decode "02ab") = Throws ""
  ∧ processRoundResponse o 0 "02ab" e
    = (o, [WsClose 1011 "OT protocol processing failed."], k1.2).
Proof.
  intros o e k0 k1.
  assert (p256_getSharedSecret k0.1 (hex_decode "02ab") = Throws "") as Hss0
    by (vm_compute; reflexivity).
  split; [exact Hss0|].
  destruct (roundSeeds o !! currentRound o) as [seeds|] eqn:Hs;
    [|vm_compute in Hs; discriminate Hs].
  assert (p256_randomSecretKey e = (k0.1, k0.2)) as Hk0 by reflexivity.
  assert (p256_randomSecretKey k0.2 = (k1.1, k1.2)) as Hk1 by reflexivity.
  exact (round_response_invalid_key o "02ab" e seeds k0.1 k0.2 k1.1 k1.2 ""
           Hs Hk0 Hk1 Hss0).
Defined.

Lemma answer_rounds_completes_sample :
  let o := Sample.sender4 in
  let keys := [Sample.client_key; Sample.client_key] in
  (currentRound o + length keys)%nat = choiceBitCount o
  ∧ let '(o', evs, _) := answer_rounds o keys Sample.entropy0 in
    currentRound o' = 2%nat
    ∧ omap challenge_round evs = [0; 1]%nat
    ∧ omap offered_round evs = [1]%nat
    ∧ Forall (λ ev, is_close ev = false) evs.
Proof.
  intros o keys.
  assert ((currentRound o + length keys)%nat = choiceBitCount o) as Hleft
    by reflexivity.
  split; [exact Hleft|].
  assert (∀ priv, ∃ ss,
            p256_getSharedSecret priv (hex_decode Sample.client_key) = Ok ss)
    as Hkey.
  { intros priv. eexists. cbn [p256_getSharedSecret Sample.crypto].
    rewrite bool_decide_true by (vm_compute; reflexivity). reflexivity. }
  assert (∀ m, length (sha256 m) = 32%nat) as Hsha.
  { intros m. cbn [sha256 Sample.crypto].
    rewrite length_take, length_app, length_replicate. lia. }
  pose proof (answer_rounds_completes keys o Sample.entropy0 eq_refl Hleft
                ltac:(repeat constructor; exact Hkey) Hsha) as Hthm.
  destruct (answer_rounds o keys Sample.entropy0) as [[o' evs] e'].
  destruct Hthm as (H1 & _ & _ & H4 & H5 & H6).
  split_and!; [exact H1 | exact H4 | exact H5 | exact H6].
Defined.

Lemma response_accepted_only_in_order_sample :
  let s := Sample.ot_state.1.1 in
  let o := Sample.sender4 in
  let o' := (processRoundResponse o 0 Sample.client_key Sample.entropy0).1.1 in
  reachable "p1" s ∧ otSender s = Some o ∧ o' ≠ o
  ∧ (currentRound o < choiceBitCount o)%nat
  ∧ o' = MkSender (bookSecrets o) (choiceBitCount o) 1 (roundSeeds o).
Proof.
  intros s o o'.
  assert (reachable "p1" s) as Hs.
  { apply (run_reachable "p1"). apply reachable_initial. }
  assert (otSender s = Some o) as Ho by (vm_compute; reflexivity).
  assert (o' ≠ o) as Hne.
  { intros Heq. apply (f_equal currentRound) in Heq.
    vm_compute in Heq. discriminate Heq. }
  destruct (response_accepted_only_in_order "p1" s o 0 Sample.client_key
              Sample.entropy0 Hs Ho Hne) as (_ & Hlt & _ & _ & _ & _ & Hsame).
  split_and!; [exact Hs | exact Ho | exact Hne | exact Hlt | exact Hsame].
Defined.

Lemma download_reference_needs_accepted_proof_sample :
  let s := Sample.ot_state.1.1 in
  let w := Sample.ot_state.1.2 in
  let past := Sample.ot_state.2 in
  let i := Message (REQUEST_SIGNED_URL 1) in
  let ev := WsSend (SIGNED_URL "https://bucket/books/01.enc") in
  history "p1" s past ∧ ev ∈ (step "p1" s w i).2 ∧ is_signed_url ev = true
  ∧ (∃ bookIndex book o p,
       i = Message (REQUEST_SIGNED_URL bookIndex)
       ∧ js_index (session_books s) bookIndex = Some book
       ∧ otSender s = Some o
       ∧ purchase s = Some p)
  ∧ ∃ proof publicSignals,
      Groth16Verify publicSignals proof ∈ past
      ∧ groth16_verify publicSignals proof = Ok true
      ∧ WsSend (OT_START (length (session_books s))) ∈ past.
Proof.
  intros s w past i ev.
  assert (history "p1" s past) as Hs.
  { exact (run_history "p1"
             [Message (INIT "jwt-alice");
              Message (ZKP_PROVE "valid" Sample.signals)]
             initial_session Sample.world0 [] (history_initial "p1")). }
  assert (ev ∈ (step "p1" s w i).2) as Hin.
  { assert ((step "p1" s w i).2 = [ev]) as -> by (vm_compute; reflexivity).
    by apply list_elem_of_singleton. }
  destruct (download_reference_needs_accepted_proof "p1" s past w i ev Hs Hin
              eq_refl) as (Hreq & Hproof & _).
  split_and!; [exact Hs | exact Hin | reflexivity | exact Hreq | exact Hproof].
Defined.

Lemma delivery_and_download_agree_sample :
  let s := Sample.ot_state.1.1 in
  let w := Sample.ot_state.1.2 in
  let o := Sample.sender4 in
  let book := Sample.book "01" in
  reachable "p1" s ∧ otSender s = Some o
  ∧ session_books s !! 1%nat = Some book
  ∧ (∃ l ct tag,
       (handle_OT_ROUNDS_COMPLETE s w).2 = [WsSend (OT_DELIVER l)]
       ∧ aes_256_gcm (masterKey_of o 1) (nonce_at (entropy w) 1)
           (hex_decode (secret_key book)) = Ok (ct, tag)
       ∧ l !! 1%nat = Some (hex_encode (nonce_at (entropy w) 1 ++ ct ++ tag)))
  ∧ handle_REQUEST_SIGNED_URL s w 1
    = (s, w, [WsSend (SIGNED_URL "https://bucket/books/01.enc")]).
Proof.
  intros s w o book.
  assert (reachable "p1" s) as Hs.
  { apply (run_reachable "p1"). apply reachable_initial. }
  assert (otSender s = Some o) as Ho by (vm_compute; reflexivity).
  assert (session_books s !! 1%nat = Some book) as Hb
    by (vm_compute; reflexivity).
  destruct (delivery_and_download_agree "p1" s w o 1 book Hs Ho Hb)
    as [Hitem Hurl].
  split_and!; [exact Hs | exact Ho | exact Hb | exact Hitem |].
  apply (Hurl "bucket"); [reflexivity | discriminate | reflexivity].
Defined.

Lemma download_reference_failures_sample :
  let s := Sample.ot_state.1.1 in
  let w := MkWorld (db Sample.ot_state.1.2) Sample.entropy0 None in
  js_index (session_books s) 3 = Some (Sample.book "03")
  ∧ handle_REQUEST_SIGNED_URL s w 3
    = (s, w, [WsClose 1011 "server configuration error."]).
Proof.
  intros s w.
  assert (js_index (session_books s) 3 = Some (Sample.book "03")) as Hb
    by (vm_compute; reflexivity).
  split; [exact Hb|].
  apply (proj1 (download_reference_failures s w 3 (Sample.book "03") Hb)).
  left. reflexivity.
Defined.

Lemma poll_times_out_sample :
  let w := Sample.pending_world in
  let s := (handle_INIT "p1" initial_session w "jwt-alice").1.1 in
  intervals s !! 0%nat = Some (Some 0%nat)
  ∧ purchases (db w) !! "p1" = Some Sample.pending_row
  ∧ (∀ n, (n ≤ 9)%nat →
       run "p1" s w (replicate n (Tick 0))
       = (set_intervals s [Some n], w, []))
  ∧ run "p1" s w (replicate 10 (Tick 0))
    = (set_intervals s [None], w,
       [WsClose 1011 "waiting for payment status update timeout."]).
Proof.
  intros w s.
  assert (intervals s !! 0%nat = Some (Some 0%nat)) as Hk
    by (vm_compute; reflexivity).
  assert (purchases (db w) !! "p1" = Some Sample.pending_row) as Hr
    by (vm_compute; reflexivity).
  split_and!; [exact Hk | exact Hr | |].
  - exact (proj1 (poll_times_out "p1" 9 s w 0%nat 0%nat Sample.pending_row
                    eq_refl Hk Hr eq_refl eq_refl)).
  - exact (proj2 (proj2 (poll_times_out "p1" 9 s w 0%nat 0%nat
                           Sample.pending_row eq_refl Hk Hr eq_refl
                           eq_refl))).
Defined.

Lemma webhook_writes_only_for_verified_payment_sample :
  let t := purchases (db Sample.pending_world) in
  (post_stripe (Some "good") "pi_1" t).2 ≠ t
  ∧ ∃ sig intent,
      Some "good" = Some sig
      ∧ constructEvent "pi_1" sig = Ok (payment_intent_succeeded intent)
      ∧ (post_stripe (Some "good") "pi_1" t).1 = Json200
      ∧ (post_stripe (Some "good") "pi_1" t).2
        = updated (update_paid intent) t.
Proof.
  intros t.
  assert ((post_stripe (Some "good") "pi_1" t).2 ≠ t) as Hne.
  { intros Heq. apply (f_equal (λ m, status <$> m !! "p1")) in Heq.
    vm_compute in Heq. discriminate Heq. }
  split; [exact Hne|].
  pose proof (webhook_writes_only_for_verified_payment (Some "good") "pi_1" t)
    as Hthm.
  destruct (post_stripe (Some "good") "pi_1" t) as [reply t'].
  destruct Hthm as (_ & _ & Hw). exact (Hw Hne).
Defined.

Lemma webhook_redelivery_changes_nothing_sample :
  let t := purchases (db Sample.pending_world) in
  let t' := (post_stripe (Some "good") "pi_1" t).2 in
  constructEvent "pi_1" "good" = Ok (payment_intent_succeeded "pi_1")
  ∧ post_stripe (Some "good") "pi_1" t' = (Json200, t')
  ∧ rowCount (update_paid "pi_1") t' = 0%nat
  ∧ t' !! "p1" = Some Sample.paid_row.
Proof.
  intros t t'.
  assert (constructEvent "pi_1" "good" = Ok (payment_intent_succeeded "pi_1"))
    as Hev by reflexivity.
  destruct (webhook_redelivery_changes_nothing "good" "pi_1" "pi_1" t
              ltac:(discriminate) Hev) as (Hsame & Hcount & Hrows).
  split_and!; [exact Hev | exact Hsame | exact Hcount |].
  exact (Hrows "p1" Sample.pending_row ltac:(vm_compute; reflexivity)).
Defined.

Lemma payment_arrives_while_polling_sample :
  let w := Sample.pending_world in
  verifyJwt "jwt-alice" = Ok (Some "alice")
  ∧ purchases (db w) !! "p1" = Some Sample.pending_row
  ∧ let '(s1, w1, evs1) := handle_INIT "p1" initial_session w "jwt-alice" in
    let '(reply, t2) := post_stripe (Some "good") "pi_1" (purchases (db w1)) in
    let '(s2, _, evs2) := handle_Tick "p1" s1 (with_purchases w1 t2) 0 in
    evs1 = [] ∧ intervals s1 = [Some 0%nat] ∧ purchase s1 = None
    ∧ reply = Json200
    ∧ (status <$> t2 !! "p1") = Some paid
    ∧ evs2 = [WsSend ZKP_READY]
    ∧ purchase s2 = Some (MkView "alice" paid "C")
    ∧ intervals s2 = [None].
Proof.
  intros w.
  assert (verifyJwt "jwt-alice" = Ok (Some "alice")) as Hjwt by reflexivity.
  assert (purchases (db w) !! "p1" = Some Sample.pending_row) as Hr
    by (vm_compute; reflexivity).
  split_and!; [exact Hjwt | exact Hr |].
  exact (payment_arrives_while_polling "p1" w "jwt-alice" "alice"
           Sample.pending_row "good" "pi_1" Hjwt Hr eq_refl eq_refl
           ltac:(discriminate) eq_refl).
Defined.

Lemma store_written_only_for_verified_proof_sample :
  let s := Sample.paid_state.1.1 in
  let w := Sample.paid_state.1.2 in
  let w' := (handle_ZKP_PROVE "p1" s w "valid" Sample.signals).1.2 in
  purchases (db w') ≠ purchases (db w)
  ∧ ∃ p r,
      purchase s = Some p
      ∧ Sample.signals !! 2%nat = Some (view_commitment p)
      ∧ groth16_verify Sample.signals "valid" = Ok true
      ∧ purchases (db w) !! "p1" = Some r
      ∧ status r = paid
      ∧ purchases (db w')
        = <["p1" := MkPurchase (user_id r) (stripe_payment_intent_id r)
                      (commitment r) verified (Sample.signals !! 0%nat)]>
            (purchases (db w)).
Proof.
  intros s w w'.
  assert (purchases (db w') ≠ purchases (db w)) as Hne.
  { intros Heq. apply (f_equal (λ m, status <$> m !! "p1")) in Heq.
    vm_compute in Heq. discriminate Heq. }
  split; [exact Hne|].
  pose proof (store_written_only_for_verified_proof "p1" s w "valid"
                Sample.signals) as Hthm.
  unfold w' in *.
  destruct (handle_ZKP_PROVE "p1" s w "valid" Sample.signals)
    as [[s1 w1] evs].
  exact (Hthm Hne).
Defined.

Lemma register_rejects_weak_password_sample :
  (String.length "short" < 8)%nat
  ∧ register (Some "alice@example.org") (Some "short") "u1" 0 Demo.no_users
      Sample.entropy0
    = (UsersError 400
         "email and password are required, and password must be at least 8 characters long",
       Demo.no_users, Sample.entropy0).
Proof.
  assert (String.length "short" < 8)%nat as Hlt by (cbn; lia).
  split; [exact Hlt|].
  apply register_rejects_weak_password.
  right. right. exists "short". split; [reflexivity | exact Hlt].
Defined.

Lemma register_duplicate_email_sample :
  let users : gmap string User := {[ "alice@example.org" := Demo.alice_row ]} in
  users !! "alice@example.org" = Some Demo.alice_row
  ∧ register (Some "alice@example.org") (Some "another password") "u2" 5
      users Sample.entropy0
    = (UsersError 409 "this email already exists", users,
       (randomBytes 16 Sample.entropy0).2).
Proof.
  intros users.
  assert (users !! "alice@example.org" = Some Demo.alice_row) as Hu
    by (vm_compute; reflexivity).
  split; [exact Hu|].
  apply (register_duplicate_email _ _ _ _ _ _ Demo.alice_row);
    [exact Hu | discriminate | cbn; lia].
Defined.

Lemma register_then_login_sample :
  (∀ salt, bcrypt_compare "correct horse" (bcrypt_hash "correct horse" salt)
           = true)
  ∧ let '(reply, users', _) :=
      register (Some "alice@example.org") (Some "correct horse") "u1" 0
        Demo.no_users Sample.entropy0 in
    reply = Registered "u1" "alice@example.org" 0
    ∧ login (Some "alice@example.org") (Some "correct horse") 1500 users'
      = LoggedIn "jwt-alice@example.org".
Proof.
  assert (∀ salt, bcrypt_compare "correct horse"
                    (bcrypt_hash "correct horse" salt) = true) as Hlaw.
  { intros salt. reflexivity. }
  split; [exact Hlaw|].
  pose proof (register_then_login "alice@example.org" "correct horse" "u1" 0
                1500 Demo.no_users Sample.entropy0
                ltac:(vm_compute; reflexivity) ltac:(discriminate)
                ltac:(cbn; lia) Hlaw) as Hthm.
  destruct (register (Some "alice@example.org") (Some "correct horse") "u1" 0
              Demo.no_users Sample.entropy0) as [[reply users'] e'].
  destruct Hthm as (Hreply & _ & Hlogin).
  split; [exact Hreply | exact Hlogin].
Defined.


Lemma ws_route_roundtrip_sample :
  single_line "p1" = true
  ∧ on_connection (Some "/ws/api/purchase/p1") = ToPurchase "p1".
Proof.
  split; [reflexivity|].
  exact (proj1 (ws_route_roundtrip None) "p1" ltac:(discriminate) eq_refl).
Defined.

Lemma upload_uses_wire_format_sample :
  existsSync "book.pdf" = true
  ∧ readFileSync "book.pdf" = Ok [37; 80; 68; 70]
  ∧ let '(secretKey, e1) := randomBytes 32 Sample.entropy0 in
    ∃ ct tag,
      aes_256_gcm secretKey (nonce_at e1 0) [37; 80; 68; 70] = Ok (ct, tag)
      ∧ (uploadEncryptedBook "bucket" "book.pdf" 0 Sample.entropy0).1
        = Some (MkUploaded (hex_encode secretKey)
                  ("book_" +:+ pretty 0 +:+ ".pdf.encrypted")
                  (nonce_at e1 0 ++ ct ++ tag))
      ∧ length (nonce_at e1 0 ++ ct ++ tag) = 32%nat
      ∧ (aesGcmEncrypt secretKey [37; 80; 68; 70] e1).1
        = Ok (nonce_at e1 0 ++ ct ++ tag).
Proof.
  split_and!; [reflexivity | reflexivity |].
  exact (upload_uses_wire_format "bucket" "book.pdf" 0 Sample.entropy0
           [37; 80; 68; 70] eq_refl eq_refl (λ _ _, eq_refl)).
Defined.
Lemma init_loads_only_own_paid_purchase_sample :
  WsSend ZKP_READY
  ∈ (handle_INIT "p1" initial_session Sample.world0 "jwt-alice").2
  ∧ ∃ sub r,
      verifyJwt "jwt-alice" = Ok (Some sub)
      ∧ purchases (db Sample.world0) !! "p1" = Some r
      ∧ user_id r = sub ∧ status r = paid.
Proof.
  assert (WsSend ZKP_READY
          ∈ (handle_INIT "p1" initial_session Sample.world0 "jwt-alice").2)
    as Hin.
  { assert ((handle_INIT "p1" initial_session Sample.world0 "jwt-alice").2
            = [WsSend ZKP_READY]) as -> by (vm_compute; reflexivity).
    by apply list_elem_of_singleton. }
  split; [exact Hin|].
  pose proof (init_loads_only_own_paid_purchase "p1" initial_session
                Sample.world0 "jwt-alice") as Hthm.
  destruct (handle_INIT "p1" initial_session Sample.world0 "jwt-alice")
    as [[s' w'] evs].
  destruct Hthm as (_ & _ & Hiff & _). exact (proj1 Hiff Hin).
Defined.

Lemma step_keeps_rows_sample :
  let s := Sample.ot_state.1.1 in
  let w := Sample.ot_state.1.2 in
  let w' := (step "p1" s w (Message DOWNLOAD_READY)).1.2 in
  purchases (db w) !! "p1" = Some Demo.verified_row
  ∧ ∃ r',
      purchases (db w') !! "p1" = Some r'
      ∧ user_id r' = "alice" ∧ stripe_payment_intent_id r' = "pi_1"
      ∧ commitment r' = "C" ∧ nullifier_hash r' = Some "42".
Proof.
  intros s w w'.
  assert (purchases (db w) !! "p1" = Some Demo.verified_row) as Hr
    by (vm_compute; reflexivity).
  split; [exact Hr|].
  pose proof (step_keeps_rows "p1" s w (Message DOWNLOAD_READY) "p1") as Hthm.
  rewrite Hr in Hthm. fold w' in Hthm.
  destruct (purchases (db w') !! "p1") as [r'|]; [|destruct Hthm].
  destruct Hthm as (H1 & H2 & H3 & H4 & _).
  exists r'.
  split_and!; [reflexivity | exact H1 | exact H2 | exact H3
              | exact (H4 ltac:(discriminate))].
Defined.

Lemma login_token_only_for_matching_password_sample :
  let users : gmap string User := {[ "alice@example.org" := Demo.alice_row ]} in
  bcrypt_compare "wrong password" (password_hash Demo.alice_row) = false
  ∧ login (Some "alice@example.org") (Some "wrong password") 1500 users
    = UsersError 401 "invalid email or password"
  ∧ login (Some "bob@example.org") (Some "correct horse") 1500 users
    = UsersError 401 "invalid email or password".
Proof.
  intros users.
  assert (bcrypt_compare "wrong password" (password_hash Demo.alice_row)
          = false) as Hc by (vm_compute; reflexivity).
  split_and!; [exact Hc | |].
  - apply (proj2 (login_token_only_for_matching_password _ _ 1500 users)
             "alice@example.org" "wrong password");
      [reflexivity | reflexivity | discriminate | discriminate |].
    right. exists Demo.alice_row. split; [vm_compute; reflexivity | exact Hc].
  - apply (proj2 (login_token_only_for_matching_password _ _ 1500 users)
             "bob@example.org" "correct horse");
      [reflexivity | reflexivity | discriminate | discriminate |].
    left. vm_compute. reflexivity.
Defined.

Lemma order_charges_only_catalog_prices_sample :
  let t := purchases (db Sample.world0) in
  let r := post_order "alice" (Some "C2") (Some 700) Demo.catalog_prices
             "p2" t in
  (700 ∉ Demo.catalog_prices)
  ∧ Forall (λ a, a ∈ Demo.catalog_prices) r.2
  ∧ r.1.2 = t.
Proof.
  intros t r.
  assert (700 ∉ Demo.catalog_prices) as Hout.
  { intros Hin. apply elem_of_cons in Hin as [Hin|Hin]; [discriminate Hin|].
    apply elem_of_cons in Hin as [Hin|Hin]; [discriminate Hin|].
    by apply elem_of_nil in Hin. }
  split; [exact Hout|].
  pose proof (order_charges_only_catalog_prices "alice" (Some "C2") (Some 700)
                Demo.catalog_prices "p2" t) as Hthm.
  fold r in Hthm. destruct r as [[reply t'] amounts].
  destruct Hthm as (Hamounts & _ & Hreply).
  split; [exact Hamounts|].
  destruct reply as [orderId clientSecret|status error]; [|exact Hreply].
  destruct Hreply as (_ & _ & c & price & intent & _ & Hp & _ & Hin & _).
  injection Hp as <-. destruct (Hout Hin).
Defined.

Lemma books_search_statements_sample :
  books_search None (Some "title")
  = ("SELECT id, title, author, description, price_cents FROM books", [])
  ∧ books_search (Some "dune") (Some "author")
    = ("SELECT id, title, author, description, price_cents FROM books WHERE author ILIKE $1",
       ["%dune%"])
  ∧ books_search (Some "dune") (Some "price_cents")
    = ("SELECT id, title, author, description, price_cents FROM books WHERE title ILIKE $1 OR author ILIKE $1",
       ["%dune%"]).
Proof.
  split_and!.
  - exact (proj1 (books_search_statements None (Some "title")) eq_refl).
  - exact (proj1 (proj2 (proj1 (proj2 (books_search_statements (Some "dune")
                                         (Some "author")))
                           "dune" eq_refl ltac:(discriminate)))
             eq_refl).
  - exact (proj2 (proj2 (proj1 (proj2 (books_search_statements (Some "dune")
                                         (Some "price_cents")))
                           "dune" eq_refl ltac:(discriminate)))
             ltac:(discriminate) ltac:(discriminate)).
Defined.
End further_samples.
